(** * aws-swiffer: a shallow embedding of the teardown engine

    The Python sources modelled here are
    - [utils/context.py]      ExecutionContext and its log prefix,
    - [resources/IResource.py] the confirmation gate [_should_proceed],
    - [utils/input.py]        [ask_delete_confirm],
    - [resources/vpc/*.py]    VPCResource, its dependency graph and SubnetResource,
    - [resources/cloudfront/Distribution.py],
    - [command/base.py]       single and batch removal,
    - [factory/vpc/VPCFactory.py] VPCResourceCollection filters,
    - [utils/aws.py]          the client cache,
    - [utils/helper.py]       [validate_arn].

    Effects are modelled by a writer/exception monad: a computation returns
    the list of events it emitted (provider calls, log lines, prompts)
    together with either a value or a raised Python exception.  Provider
    responses are fixed oracles passed as arguments. *)

From Stdlib Require Import List Bool Arith Lia.
From Stdlib Require Import Ascii String.
From stdpp Require Import base list gmap strings pretty.
Import ListNotations.
Open Scope string_scope.

(* ------------------------------------------------------------------ *)
(** ** Exceptions, events and the effect monad *)

(** Python exceptions that reach the modelled code. *)
Inductive exn :=
| ClientError (code message : string)   (* botocore.exceptions.ClientError *)
| TypeError (message : string)
| NameError (message : string)           (* UnboundLocalError *)
| NotImplementedError (message : string)
| OtherError (message : string).         (* any other Exception *)

Definition exn_str (e : exn) : string :=
  match e with
  | ClientError c m => "An error occurred (" +:+ c +:+ "): " +:+ m
  | TypeError m | NameError m | NotImplementedError m | OtherError m => m
  end.

Inductive result (A : Type) :=
| Ok (a : A)
| Exc (e : exn).
Arguments Ok {A} a.
Arguments Exc {A} e.

(** Observable events. [Call api] is a provider (boto3) API invocation. *)
Inductive event :=
| Call (api : string)
| Log (message : string)
| Prompt (text : string).

(** writer + exception monad *)
Definition M (A : Type) : Type := (list event * result A)%type.

Definition ret {A} (a : A) : M A := ([], Ok a).
Definition raise {A} (e : exn) : M A := ([], Exc e).
Definition emit (ev : event) : M unit := ([ev], Ok tt).
Definition log (s : string) : M unit := emit (Log s).

Definition bind {A B} (m : M A) (k : A -> M B) : M B :=
  match m with
  | (t, Ok a) => let (t', r) := k a in ((t ++ t')%list, r)
  | (t, Exc e) => (t, Exc e)
  end.

Notation "'do' x <- m ; k" := (bind m (fun x => k))
  (at level 200, x name, m at level 100, k at level 200).
Notation "'do_' m ; k" := (bind m (fun _ => k))
  (at level 200, m at level 100, k at level 200).

(** [try: m except ClientError as e: h e] *)
Definition try_client {A} (m : M A) (h : string -> string -> M A) : M A :=
  match m with
  | (t, Exc (ClientError c msg)) => let (t', r) := h c msg in ((t ++ t')%list, r)
  | _ => m
  end.

(** [try: m except Exception as e: h e] *)
Definition try_any {A} (m : M A) (h : exn -> M A) : M A :=
  match m with
  | (t, Exc e) => let (t', r) := h e in ((t ++ t')%list, r)
  | _ => m
  end.

(** A provider call: emits the call, then returns the oracle's response. *)
Definition api {A} (name : string) (resp : result A) : M A := ([Call name], resp).

Definition trace {A} (m : M A) : list event := fst m.
Definition outcome {A} (m : M A) : result A := snd m.

(** Mutating provider APIs are the ones whose name starts with one of
    these verbs (delete_subnet, detach_network_interface,
    disassociate_route_table, revoke_security_group_ingress,
    update_distribution, terminate_instances, ...). *)
Definition mutating_prefixes : list string :=
  ["delete_"; "detach_"; "disassociate_"; "revoke_"; "update_"; "terminate_";
   "remove_"].

Definition is_mutating_api (name : string) : bool :=
  existsb (fun p => String.prefix p name) mutating_prefixes.

Definition is_mutating (ev : event) : bool :=
  match ev with Call n => is_mutating_api n | _ => false end.

Definition no_mutating (t : list event) : bool := forallb (fun ev => negb (is_mutating ev)) t.

(* ------------------------------------------------------------------ *)
(** ** ExecutionContext (utils/context.py) *)

Record ExecutionContext := mkContext {
  dry_run : bool;
  auto_approve : bool;
  region : option string;
  profile : option string
}.

Definition log_prefix (c : ExecutionContext) : string :=
  if dry_run c then "[DRY-RUN] "
  else if auto_approve c then "[AUTO-APPROVE] "
  else "".

(** [context.log_prefix() if context else ""]; a dataclass instance is truthy. *)
Definition opt_prefix (context : option ExecutionContext) : string :=
  match context with Some c => log_prefix c | None => "" end.

(** [context and context.dry_run] *)
Definition opt_dry_run (context : option ExecutionContext) : bool :=
  match context with Some c => dry_run c | None => false end.

(* ------------------------------------------------------------------ *)
(** ** The confirmation gate (resources/IResource.py, utils/input.py) *)

(** Positional arguments of a Python call, as far as the gate passes them. *)
Inductive pyarg :=
| AStr (s : string)
| ACtx (c : option ExecutionContext).

Section Gate.

(** The button the user presses in the Yes/No dialog. *)
Variable user_choice : bool.

(** [def ask_delete_confirm(resource_name: str) -> bool] shows the dialog
    and returns the choice.  Python binds the positional arguments first:
    any call with a number of positional arguments other than one raises
    TypeError before the body runs. *)
Definition ask_delete_confirm (args : list pyarg) : M bool :=
  match args with
  | [AStr resource_name] =>
      do_ emit (Prompt ("Are sure to delete " +:+ resource_name +:+
                        "? All data will lost!"));
      ret user_choice
  | _ =>
      raise (TypeError ("ask_delete_confirm() takes 1 positional argument but " +:+
                        pretty (length args) +:+ " were given"))
  end.

(** [IResource._should_proceed(self, context, operation_description)] *)
Definition _should_proceed (name : string) (context : option ExecutionContext)
    (operation_description : string) : M bool :=
  match context with
  | Some c =>
      let prefix := log_prefix c in
      if dry_run c then
        do_ log (prefix +:+ "Would " +:+ operation_description +:+ ": " +:+ name);
        ret false
      else if auto_approve c then
        do_ log (prefix +:+ "Auto-approving " +:+ operation_description +:+ ": " +:+ name);
        ret true
      else ask_delete_confirm [AStr name; ACtx context]
  | None => ask_delete_confirm [AStr name; ACtx context]
  end.

End Gate.

(* ------------------------------------------------------------------ *)
(** ** CloudFront Distribution (resources/cloudfront/Distribution.py) *)

(** Responses of the cloudfront client for one distribution. *)
Record cf_provider := {
  cf_get_distribution_config : result (bool * string);  (* (Enabled, ETag) *)
  cf_update_distribution : result unit;
  cf_waiter_wait : result unit;
  cf_delete_distribution : result unit
}.

Section Distribution.
Variable p : cf_provider.

(** [Distribution.clean(self, context=None)]; returns the ETag or None. *)
Definition distribution_clean (id : string) (context : option ExecutionContext)
    : M (option string) :=
  let prefix := opt_prefix context in
  (* etag = None; try: ... except ClientError: print(...); return etag *)
  try_client
    (do cfg <- api "get_distribution_config" (cf_get_distribution_config p);
     let (enabled, etag) := cfg in
     if negb enabled then
       do_ log (prefix +:+ "Distribution " +:+ id +:+ " is already disabled.");
       ret (Some etag)
     else
       (* etag is already bound when update or wait fail *)
       try_client
         (do_ api "update_distribution" (cf_update_distribution p);
          do_ api "get_waiter.wait" (cf_waiter_wait p);
          do_ log (prefix +:+ "Successfully disabled distribution: " +:+ id);
          ret (Some etag))
         (fun _ msg => do_ emit (Log ("Error: " +:+ msg)); ret (Some etag)))
    (fun _ msg => do_ emit (Log ("Error: " +:+ msg)); ret None).

(** [Distribution.remove(self, context=None)]: note that [self.clean()] is
    called without the context, and [response] is unbound when there is
    no ETag. *)
Definition distribution_remove (arn id : string) (context : option ExecutionContext)
    : M unit :=
  let prefix := opt_prefix context in
  do_ log (prefix +:+ "Trying to delete resource: " +:+ arn);
  do etag <- distribution_clean id None;
  match etag with
  | Some e =>
      if String.eqb e "" then
        do_ log (prefix +:+ "Cannot disable and delte distribution");
        do_ log (prefix +:+ "Resource deleted: " +:+ arn);
        raise (NameError "cannot access local variable 'response'")
      else
        do_ api "delete_distribution" (cf_delete_distribution p);
        do_ log (prefix +:+ "Resource deleted: " +:+ arn);
        ret tt
  | None =>
      do_ log (prefix +:+ "Cannot disable and delte distribution");
      do_ log (prefix +:+ "Resource deleted: " +:+ arn);
      raise (NameError "cannot access local variable 'response'")
  end.

End Distribution.

(* ------------------------------------------------------------------ *)
(** ** VPC resources and their dependency graph (resources/vpc/VPCResource.py) *)

(** An entry of a resource's [tags] list: a dict with optional ['Key'] and
    ['Value'] entries, or some non-dict value. *)
Inductive tag :=
| TagDict (key value : option string)
| TagOther.

(** A VPCResource object.  [dependencies] and [dependents] hold object
    identities (Python lists of objects compared with [==], which is
    identity since VPCResource defines no [__eq__]). *)
Record vobj := mkVobj {
  v_arn : string;
  v_name : string;
  v_vpc_id : string;
  v_resource_type : string;
  v_native_id : string;          (* subnet_id, group_id, nat_gateway_id, ... *)
  v_tags : option (list tag);    (* None or a list *)
  dependencies : list nat;
  dependents : list nat
}.

Definition set_dependencies (o : vobj) (l : list nat) : vobj :=
  mkVobj (v_arn o) (v_name o) (v_vpc_id o) (v_resource_type o) (v_native_id o)
         (v_tags o) l (dependents o).
Definition set_dependents (o : vobj) (l : list nat) : vobj :=
  mkVobj (v_arn o) (v_name o) (v_vpc_id o) (v_resource_type o) (v_native_id o)
         (v_tags o) (dependencies o) l.

(** The object store: identity -> object. *)
Abbreviation heap := (gmap nat vobj).

(** [VPCResource.add_dependency(self, dependency)]:
<<
    if dependency not in self.dependencies:
        self.dependencies.append(dependency)
        if self not in dependency.dependents:
            dependency.dependents.append(self)
>>
    [dependency] is re-read after the first append, so the case
    [self is dependency] (one shared object) is modelled as Python does it. *)
Definition add_dependency (h : heap) (self dependency : nat) : heap :=
  match h !! self with
  | None => h
  | Some s =>
      if decide (dependency ∈ dependencies s) then h
      else
        let h1 := <[self := set_dependencies s (dependencies s ++ [dependency])]> h in
        match h1 !! dependency with
        | None => h1
        | Some d =>
            if decide (self ∈ dependents d) then h1
            else <[dependency := set_dependents d (dependents d ++ [self])]> h1
        end
  end.

(** [VPCResource.get_dependencies]: a copy of the list. *)
Definition get_dependencies (o : vobj) : list nat := dependencies o.

(** The per-type methods a VPCResource subclass overrides.  Every subclass
    (Subnet, SecurityGroup, NATGateway, VPCEndpoint, NetworkInterface)
    writes [can_delete] as [if not super().can_delete(): return False]
    followed by its own usage checks ([usage_checks]), and [remove] as the
    template [vpc_remove] below followed by its own deletion code
    ([delete_body]).  The strings are the subclass's log messages. *)
Class VPCResourceOps := {
  is_default_resource : vobj -> M bool;
  exists_resource : vobj -> M bool;
  usage_checks : vobj -> M bool;
  delete_body : option ExecutionContext -> vobj -> M unit;
  msg_attempt : vobj -> string;       (* "Attempting to delete subnet: ..." *)
  msg_cannot : vobj -> string;        (* "Cannot delete subnet ... - ..." *)
  operation_desc : vobj -> string;    (* "delete subnet ... in VPC ..." *)
  msg_skipped : string;               (* "Subnet deletion skipped" *)
  msg_would : vobj -> string          (* "Would delete subnet: ..." *)
}.

Section VPC.
Context `{VPCResourceOps}.
Variable user_choice : bool.

(** the [for dependency in self.dependencies] loop of [VPCResource.can_delete];
    a dependency id missing from the store cannot occur in Python. *)
Fixpoint dependencies_loop (h : heap) (self_arn : string) (ds : list nat) : M bool :=
  match ds with
  | [] => ret true
  | d :: ds' =>
      match h !! d with
      | None => raise (OtherError "dangling dependency")
      | Some od =>
          do e <- exists_resource od;
          if e then
            do_ log ("Cannot delete " +:+ self_arn +:+ " - dependency exists: " +:+ v_arn od);
            ret false
          else dependencies_loop h self_arn ds'
      end
  end.

(** [VPCResource.can_delete] (the base implementation) *)
Definition base_can_delete (h : heap) (o : vobj) : M bool :=
  do d <- is_default_resource o;
  if d then
    do_ log ("Cannot delete default resource: " +:+ v_arn o);
    ret false
  else dependencies_loop h (v_arn o) (dependencies o).

(** a subclass's [can_delete]: [if not super().can_delete(): return False] *)
Definition can_delete (h : heap) (o : vobj) : M bool :=
  do b <- base_can_delete h o;
  if negb b then ret false else usage_checks o.

(** the common shape of the subclasses' [remove(self, context)] *)
Definition vpc_remove (context : option ExecutionContext) (h : heap) (o : vobj) : M unit :=
  let prefix := opt_prefix context in
  do_ log (prefix +:+ msg_attempt o);
  do ok <- can_delete h o;
  if negb ok then log (msg_cannot o)
  else
    do go <- _should_proceed user_choice (v_name o) context (operation_desc o);
    if negb go then log msg_skipped
    else if opt_dry_run context then log (prefix +:+ msg_would o)
    else delete_body context o.

End VPC.

(* ------------------------------------------------------------------ *)
(** ** SubnetResource (resources/vpc/SubnetResource.py) *)

(** A network interface as returned by describe_network_interfaces. *)
Record eni := mkEni { eni_id : string; eni_status : string; eni_type : option string }.

(** Responses of the ec2 client, per subnet id. *)
Record ec2_provider := {
  describe_subnets : string -> result (option bool);            (* Subnets[0].DefaultForAz *)
  describe_network_interfaces : string -> result (list eni);    (* filter subnet-id *)
  describe_instances : string -> result (list (list (string * string)));
      (* Reservations, each a list of (InstanceId, State.Name) *)
  delete_subnet : string -> result unit
}.

Section Subnet.
Variable p : ec2_provider.

Definition subnet_is_default_resource (o : vobj) : M bool :=
  let sid := v_native_id o in
  try_client
    (do df <- api "describe_subnets" (describe_subnets p sid);
     let is_default := match df with Some b => b | None => false end in
     do_ (if is_default then log ("Subnet " +:+ sid +:+ " is a default subnet and is protected")
          else ret tt);
     ret is_default)
    (fun c m => do_ log ("Error checking if subnet " +:+ sid +:+ " is default: " +:+
                         exn_str (ClientError c m));
                ret true).

Definition subnet_exists (o : vobj) : M bool :=
  let sid := v_native_id o in
  try_client
    (do_ api "describe_subnets" (describe_subnets p sid); ret true)
    (fun c m => if String.eqb c "InvalidSubnetID.NotFound" then ret false
                else do_ log ("Error checking subnet existence: " +:+ exn_str (ClientError c m));
                     ret true).

Fixpoint log_each {A} (f : A -> string) (l : list A) : M unit :=
  match l with [] => ret tt | x :: l' => do_ log (f x); log_each f l' end.

(** the checks of [SubnetResource.can_delete] after [super().can_delete()] *)
Definition subnet_usage_checks (o : vobj) : M bool :=
  let sid := v_native_id o in
  do r1 <- try_client
    (do enis <- api "describe_network_interfaces" (describe_network_interfaces p sid);
     match enis with
     | [] => ret true
     | _ =>
         do_ log ("Subnet " +:+ sid +:+ " has " +:+ pretty (length enis) +:+ " network interfaces");
         do_ log_each (fun e => "Network interface: " +:+ eni_id e +:+ " Status: " +:+ eni_status e
                               +:+ " Type: " +:+ default "interface" (eni_type e)) enis;
         ret false
     end)
    (fun c m => do_ log ("Error checking network interfaces in subnet " +:+ sid +:+ ": " +:+
                         exn_str (ClientError c m)); ret false);
  if negb r1 then ret false else
  do r2 <- try_client
    (do res <- api "describe_instances" (describe_instances p sid);
     let instances := concat res in
     match instances with
     | [] => ret true
     | _ =>
         do_ log ("Subnet " +:+ sid +:+ " has " +:+ pretty (length instances) +:+ " instances");
         do_ log_each (fun i => "Instance: " +:+ fst i +:+ " State: " +:+ snd i) instances;
         ret false
     end)
    (fun c m => do_ log ("Error checking instances in subnet " +:+ sid +:+ ": " +:+
                         exn_str (ClientError c m)); ret false);
  if negb r2 then ret false else ret true.

(** the [try: self.ec2_client.delete_subnet(...)] block of [SubnetResource.remove] *)
Definition subnet_delete_body (context : option ExecutionContext) (o : vobj) : M unit :=
  let prefix := opt_prefix context in
  let sid := v_native_id o in
  try_client
    (do_ api "delete_subnet" (delete_subnet p sid);
     log (prefix +:+ "Successfully deleted subnet: " +:+ sid))
    (fun code msg =>
       do_ (if String.eqb code "InvalidSubnetID.NotFound" then
              log (prefix +:+ "Subnet " +:+ sid +:+ " not found - may have been deleted already")
            else if String.eqb code "DependencyViolation" then
              log (prefix +:+ "Cannot delete subnet " +:+ sid +:+ " - dependency violation: " +:+ msg)
            else if String.eqb code "InvalidSubnet.InUse" then
              log (prefix +:+ "Cannot delete subnet " +:+ sid +:+ " - subnet is in use: " +:+ msg)
            else
              log (prefix +:+ "Failed to delete subnet " +:+ sid +:+ ": " +:+ code +:+ " - " +:+ msg));
       log ("Full error details: " +:+ exn_str (ClientError code msg))).

(** Method dispatch for a VPC made of subnets: objects whose
    [resource_type] is ["subnet"] use SubnetResource's methods, others the
    VPCResource base methods (which are abstract for [remove]). *)
#[local] Definition is_subnet (o : vobj) : bool := String.eqb (v_resource_type o) "subnet".

Definition subnet_ops : VPCResourceOps := {|
  is_default_resource o := if is_subnet o then subnet_is_default_resource o else ret false;
  exists_resource o := if is_subnet o then subnet_exists o else ret true;
  usage_checks o := if is_subnet o then subnet_usage_checks o else ret true;
  delete_body c o :=
    if is_subnet o then subnet_delete_body c o
    else raise (NotImplementedError "Subclasses must implement remove method");
  msg_attempt o := "Attempting to delete subnet: " +:+ v_native_id o +:+ " (" +:+ v_name o +:+ ")";
  msg_cannot o := "Cannot delete subnet " +:+ v_native_id o +:+
                  " - dependencies exist or it's protected";
  operation_desc o := "delete subnet " +:+ v_native_id o +:+ " (" +:+ v_name o +:+
                      ") in VPC " +:+ v_vpc_id o;
  msg_skipped := "Subnet deletion skipped";
  msg_would o := "Would delete subnet: " +:+ v_native_id o
|}.

End Subnet.

(* ------------------------------------------------------------------ *)
(** ** BaseCommand (command/base.py) *)

Section Command.
Variable R : Type.
Variable arn_of : R -> string.
(** [resource.remove(context=self.context)] of each resource *)
Variable remove : R -> option ExecutionContext -> M unit.
(** [self.context] *)
Variable context : option ExecutionContext.

(** [BaseCommand._execute_removal(self, resource)] *)
Definition _execute_removal (resource : R) : M unit :=
  let prefix := opt_prefix context in
  do_ log (prefix +:+ "Processing resource: " +:+ arn_of resource);
  try_any (remove resource context)
    (fun e => do_ log ("Failed to remove resource " +:+ arn_of resource +:+ ": " +:+ exn_str e);
              raise e).

(** one iteration of the batch loop; [true] when no exception escaped *)
Definition batch_step (prefix : string) (resource : R) : M bool :=
  try_any
    (do_ log (prefix +:+ "Processing resource: " +:+ arn_of resource);
     do_ remove resource context;
     ret true)
    (fun e => do_ log ("Failed to remove resource " +:+ arn_of resource +:+ ": " +:+ exn_str e);
              ret false).

Fixpoint batch_loop (prefix : string) (resources : list R) (success_count failure_count : nat)
    : M (nat * nat) :=
  match resources with
  | [] => ret (success_count, failure_count)
  | resource :: rest =>
      do ok <- batch_step prefix resource;
      if ok then batch_loop prefix rest (S success_count) failure_count
      else batch_loop prefix rest success_count (S failure_count)
  end.

Definition summary_message (prefix : string) (success_count failure_count : nat) : string :=
  prefix +:+ "Batch operation complete: " +:+ pretty success_count +:+ " succeeded, " +:+
  pretty failure_count +:+ " failed".

(** [BaseCommand._execute_batch_removal(self, resources)] *)
Definition _execute_batch_removal (resources : list R) : M unit :=
  match resources with
  | [] => log "No resources to process"
  | _ =>
      let prefix := opt_prefix context in
      do counts <- batch_loop prefix resources 0 0;
      log (summary_message prefix (fst counts) (snd counts))
  end.

End Command.
Arguments _execute_removal {R} arn_of remove context resource.
Arguments batch_step {R} arn_of remove context prefix resource.
Arguments batch_loop {R} arn_of remove context prefix resources success_count failure_count.
Arguments _execute_batch_removal {R} arn_of remove context resources.

(* ------------------------------------------------------------------ *)
(** ** VPCResourceCollection (factory/vpc/VPCFactory.py) *)

(** A collection holds ten Python list objects, stored by location in a
    list store; the lists hold resource objects. *)
Record collection := mkCollection {
  c_vpc_id : string;
  subnets : nat;
  security_groups : nat;
  route_tables : nat;
  network_acls : nat;
  network_interfaces : nat;
  nat_gateways : nat;
  vpc_endpoints : nat;
  internet_gateways : nat;
  elastic_ips : nat;
  vpc_peering_connections : nat
}.

Abbreviation lheap := (gmap nat (list vobj)).

(** allocation of a new Python list *)
Definition alloc (lh : lheap) (l : list vobj) : lheap * nat :=
  let i := fresh (dom lh) in (<[i := l]> lh, i).

(** reading a list attribute *)
Definition read (lh : lheap) (loc : nat) : list vobj := default [] (lh !! loc).

(** [VPCResourceCollection(vpc_id)]: ten fresh empty lists *)
Definition new_collection (lh : lheap) (vpc_id : string) : lheap * collection :=
  let (lh, l1) := alloc lh [] in let (lh, l2) := alloc lh [] in
  let (lh, l3) := alloc lh [] in let (lh, l4) := alloc lh [] in
  let (lh, l5) := alloc lh [] in let (lh, l6) := alloc lh [] in
  let (lh, l7) := alloc lh [] in let (lh, l8) := alloc lh [] in
  let (lh, l9) := alloc lh [] in let (lh, l10) := alloc lh [] in
  (lh, mkCollection vpc_id l1 l2 l3 l4 l5 l6 l7 l8 l9 l10).

(** the ten list attributes, in the order the source assigns them *)
Inductive rfield := FSubnets | FSecurityGroups | FRouteTables | FNetworkAcls
  | FNetworkInterfaces | FNatGateways | FVpcEndpoints | FInternetGateways
  | FElasticIps | FVpcPeeringConnections.

#[global] Instance rfield_eq_dec : EqDecision rfield.
Proof. solve_decision. Defined.

Definition all_fields : list rfield :=
  [FSubnets; FSecurityGroups; FRouteTables; FNetworkAcls; FNetworkInterfaces;
   FNatGateways; FVpcEndpoints; FInternetGateways; FElasticIps; FVpcPeeringConnections].

Definition get_field (c : collection) (f : rfield) : nat :=
  match f with
  | FSubnets => subnets c | FSecurityGroups => security_groups c
  | FRouteTables => route_tables c | FNetworkAcls => network_acls c
  | FNetworkInterfaces => network_interfaces c | FNatGateways => nat_gateways c
  | FVpcEndpoints => vpc_endpoints c | FInternetGateways => internet_gateways c
  | FElasticIps => elastic_ips c | FVpcPeeringConnections => vpc_peering_connections c
  end.

(** [filtered.<field> = loc] *)
Definition set_field (c : collection) (f : rfield) (loc : nat) : collection :=
  let '(mkCollection v a b d e g i j k l m) := c in
  match f with
  | FSubnets => mkCollection v loc b d e g i j k l m
  | FSecurityGroups => mkCollection v a loc d e g i j k l m
  | FRouteTables => mkCollection v a b loc e g i j k l m
  | FNetworkAcls => mkCollection v a b d loc g i j k l m
  | FNetworkInterfaces => mkCollection v a b d e loc i j k l m
  | FNatGateways => mkCollection v a b d e g loc j k l m
  | FVpcEndpoints => mkCollection v a b d e g i loc k l m
  | FInternetGateways => mkCollection v a b d e g i j loc l m
  | FElasticIps => mkCollection v a b d e g i j k loc m
  | FVpcPeeringConnections => mkCollection v a b d e g i j k l loc
  end.

(** [resource_tag_dict = {tag.get('Key', ''): tag.get('Value', '')
    for tag in resource.tags if isinstance(tag, dict)}]: later keys win *)
Definition tag_dict (ts : list tag) : gmap string string :=
  foldl (fun d t => match t with
                    | TagDict k v => <[default "" k := default "" v]> d
                    | TagOther => d
                    end) ∅ ts.

(** the [matches_tags] closure of [filter_by_tags]; [tags] is the items of
    the Dict[str, str] argument *)
Definition matches_tags (tags : list (string * string)) (resource : vobj) : bool :=
  match v_tags resource with
  | None | Some [] => match tags with [] => true | _ => false end
  | Some ts =>
      forallb (fun kv => bool_decide (tag_dict ts !! kv.1 = Some kv.2)) tags
  end.

(** [filtered.<field> = [r for r in self.<field> if keep(r)]] for every field *)
Definition assign_filtered (keep : vobj -> bool) (self : collection)
    (st : lheap * collection) (f : rfield) : lheap * collection :=
  let (lh, filtered) := st in
  let (lh', loc) := alloc lh (List.filter keep (read lh (get_field self f))) in
  (lh', set_field filtered f loc).

(** [VPCResourceCollection.filter_by_tags(self, tags)] *)
Definition filter_by_tags (lh : lheap) (self : collection) (tags : list (string * string))
    : lheap * collection :=
  foldl (assign_filtered (matches_tags tags) self) (new_collection lh (c_vpc_id self)) all_fields.

(** [[r for r in l if not r.is_default_resource()]] *)
Fixpoint filter_not_default `{VPCResourceOps} (l : list vobj) : M (list vobj) :=
  match l with
  | [] => ret []
  | r :: l' =>
      do d <- is_default_resource r;
      do rest <- filter_not_default l';
      ret (if d then rest else r :: rest)
  end.

Definition assign_not_default `{VPCResourceOps} (self : collection)
    (st : M (lheap * collection)) (f : rfield) : M (lheap * collection) :=
  do s <- st;
  let (lh, filtered) := s in
  do kept <- filter_not_default (read lh (get_field self f));
  let (lh', loc) := alloc lh kept in
  ret (lh', set_field filtered f loc).

(** [VPCResourceCollection.exclude_default_resources(self)] *)
Definition exclude_default_resources `{VPCResourceOps} (lh : lheap) (self : collection)
    : M (lheap * collection) :=
  foldl (assign_not_default self) (ret (new_collection lh (c_vpc_id self))) all_fields.

(* ------------------------------------------------------------------ *)
(** ** Client cache (utils/aws.py) *)

(** The module globals [clients] / [resources] (dict str -> handle) and a
    counter standing for the identity of the next object boto3 creates. *)
Record cache := mkCache { entries : gmap string nat; next_handle : nat }.

(** [if not region: region = os.getenv('AWS_REGION', 'eu-west-1')] *)
Definition resolve_region (env_region : option string) (region : option string) : string :=
  match region with
  | Some r => if String.eqb r "" then default "eu-west-1" env_region else r
  | None => default "eu-west-1" env_region
  end.

(** [def get_client(service_name, region=None)]:
<<
    key = service_name + '_' + region
    if service_name not in clients:
        clients[key] = boto3.client(service_name, config=my_config)
    return clients[key]
>>
    The returned [None] is the KeyError of [clients[key]]. *)
Definition get_client (env_region : option string) (clients : cache)
    (service_name : string) (region : option string) : cache * option nat :=
  let region := resolve_region env_region region in
  let key := service_name +:+ "_" +:+ region in
  let clients' :=
    if decide (service_name ∈ dom (entries clients)) then clients
    else mkCache (<[key := next_handle clients]> (entries clients)) (S (next_handle clients)) in
  (clients', entries clients' !! key).

(** [def get_resource(service_name, region=None)]: the sibling that tests [key]. *)
Definition get_resource (env_region : option string) (resources : cache)
    (service_name : string) (region : option string) : cache * option nat :=
  let region := resolve_region env_region region in
  let key := service_name +:+ "_" +:+ region in
  let resources' :=
    if decide (key ∈ dom (entries resources)) then resources
    else mkCache (<[key := next_handle resources]> (entries resources))
                 (S (next_handle resources)) in
  (resources', entries resources' !! key).

(* ------------------------------------------------------------------ *)
(** ** validate_arn (utils/helper.py) *)























(** [arn.split(':')] *)
Fixpoint split_colon_aux (s : list ascii) (cur : list ascii) : list string :=
  match s with
  | [] => [String.string_of_list_ascii (rev cur)]
  | c :: rest =>
      if Ascii.eqb c ":"%char then String.string_of_list_ascii (rev cur) :: split_colon_aux rest []
      else split_colon_aux rest (c :: cur)
  end.
Definition split_colon (s : string) : list string := split_colon_aux (String.list_ascii_of_string s) [].

(* ------------------------------------------------------------------ *)
(** ** Vocabulary of the batch statements *)

(** [resource.remove(context)] raises *)
Definition raises {R} (remove : R -> option ExecutionContext -> M unit)
    (context : option ExecutionContext) (r : R) : bool :=
  match outcome (remove r context) with Exc _ => true | Ok _ => false end.

(** the events of one resource in the batch: the "Processing" line, the
    events of its [remove], and the failure line when it raised *)
Definition batch_step_trace {R} (arn_of : R -> string)
    (remove : R -> option ExecutionContext -> M unit)
    (context : option ExecutionContext) (prefix : string) (r : R) : list event :=
  match remove r context with
  | (t, Ok _) => Log (prefix +:+ "Processing resource: " +:+ arn_of r) :: t
  | (t, Exc e) => Log (prefix +:+ "Processing resource: " +:+ arn_of r) ::
                  (t ++ [Log ("Failed to remove resource " +:+ arn_of r +:+ ": " +:+ exn_str e)])%list
  end.

(** a resource whose [remove] succeeds or raises a ClientError, for the
    concrete runs below *)
Definition demo_remove (arn : string) (_ : option ExecutionContext) : M unit :=
  if String.eqb arn "arn:aws:s3:::locked"
  then ([Call "delete_bucket"], Exc (ClientError "AccessDenied" "Access Denied"))
  else ([Call "delete_bucket"], Ok tt).

Definition demo_context : option ExecutionContext := Some (mkContext false true None None).

(** [VPCResource.__init__]: a new object with empty [dependencies] and
    [dependents] lists. *)
Definition new_vpc_resource (arn name vpc_id resource_type native_id : string)
    (tags : option (list tag)) : vobj :=
  mkVobj arn name vpc_id resource_type native_id tags [] [].

(** The stores a program builds: objects are created by the constructor at
    fresh identities and linked through [add_dependency], the only code of
    the package that writes [dependencies] or [dependents]. *)
Inductive reachable : heap -> Prop :=
| reach_empty : reachable ∅
| reach_new (h : heap) (i : nat) arn name vpc_id resource_type native_id tags :
    reachable h -> h !! i = None ->
    reachable (<[i := new_vpc_resource arn name vpc_id resource_type native_id tags]> h)
| reach_add (h : heap) (a b : nat) :
    reachable h -> is_Some (h !! a) -> is_Some (h !! b) -> reachable (add_dependency h a b).

(** [b in a.dependencies] and [a in b.dependents] *)
Definition edep (h : heap) (a b : nat) : Prop :=
  exists o, h !! a = Some o /\ b ∈ dependencies o.
Definition edent (h : heap) (b a : nat) : Prop :=
  exists o, h !! b = Some o /\ a ∈ dependents o.

(** no list holds an object twice, and the two lists describe the same edges *)
Definition heap_wf (h : heap) : Prop :=
  (forall i o, h !! i = Some o -> NoDup (dependencies o) /\ NoDup (dependents o)) /\
  (forall a b, edep h a b <-> edent h b a).

(** object [i] after the edge [a -> b] is appended on both sides *)
Definition add_edge (a b i : nat) (o : vobj) : vobj :=
  mkVobj (v_arn o) (v_name o) (v_vpc_id o) (v_resource_type o) (v_native_id o) (v_tags o)
         (dependencies o ++ (if decide (i = a) then [b] else []))
         (dependents o ++ (if decide (i = b) then [a] else [])).

(** A VPC of two subnets: [subnet-default] is the default subnet, and
    [subnet-app] (id 0) depends on [subnet-db] (id 1). *)
Definition demo_ec2 : ec2_provider := {|
  describe_subnets sid := Ok (Some (String.eqb sid "subnet-default"));
  describe_network_interfaces _ := Ok [];
  describe_instances _ := Ok [];
  delete_subnet _ := Ok tt
|}.

Definition demo_subnet (sid : string) : vobj :=
  new_vpc_resource ("arn:aws:ec2:eu-west-1:123456789012:subnet/" +:+ sid) sid
                   "vpc-1" "subnet" sid None.

Definition demo_heap : heap :=
  add_dependency (<[1 := demo_subnet "subnet-db"]> (<[0 := demo_subnet "subnet-app"]> ∅)) 0 1.

(** Reference reading of the collection filters: a resource carries every
    requested pair [key: value] of [tags] when its tag dictionary maps
    [key] to [value]; a resource is kept by [exclude_default_resources]
    when [is_default_resource()] returns false. *)
Definition spec_has_all_tags (tags : list (string * string)) (r : vobj) : bool :=
  forallb (fun kv => bool_decide (tag_dict (default [] (v_tags r)) !! kv.1 = Some kv.2)) tags.

Definition spec_not_default `{VPCResourceOps} (r : vobj) : bool :=
  match outcome (is_default_resource r) with Ok false => true | _ => false end.

(** a collection [c] in store [lh] holding, for each field [f], a new
    list (absent from the store [lh0] before the call) with the elements
    of [self]'s list in [lh0] that satisfy [keep]; the lists of [lh0] are
    untouched, and no two fields share a list *)
Definition fresh_filtered_copy (keep : vobj -> bool) (lh0 : lheap) (self : collection)
    (done : rfield -> Prop) (lh : lheap) (c : collection) : Prop :=
  lh0 ⊆ lh /\ c_vpc_id c = c_vpc_id self /\
  (forall f, done f ->
     (get_field c f ∉ dom lh0) /\
     lh !! get_field c f = Some (List.filter keep (read lh0 (get_field self f)))) /\
  (forall f g, done f -> done g -> f <> g -> get_field c f <> get_field c g).

(** A collection of [vpc-1] whose subnet list holds two subnets. *)
Definition demo_collection : lheap * collection :=
  let (lh, c) := new_collection ∅ "vpc-1" in
  (<[subnets c := [demo_subnet "subnet-app"; demo_subnet "subnet-default"]]> lh, c).

(** a context with dry_run and auto_approve both set *)
Definition dry_auto_context : ExecutionContext := mkContext true true None None.

(** an enabled distribution whose calls all succeed *)
Definition enabled_distribution : cf_provider := {|
  cf_get_distribution_config := Ok (true, "E2QWRUHEXAMPLE");
  cf_update_distribution := Ok tt;
  cf_waiter_wait := Ok tt;
  cf_delete_distribution := Ok tt
|}.

(* ------------------------------------------------------------------ *)
(** ** String helpers of the Python built-ins *)

(** [s.split(sep)] for a one-character separator *)
Fixpoint split_on_aux (sep : ascii) (s : list ascii) (cur : list ascii) : list string :=
  match s with
  | [] => [String.string_of_list_ascii (rev cur)]
  | c :: rest =>
      if Ascii.eqb c sep then String.string_of_list_ascii (rev cur) :: split_on_aux sep rest []
      else split_on_aux sep rest (c :: cur)
  end.
Definition split_on (sep : ascii) (s : string) : list string :=
  split_on_aux sep (String.list_ascii_of_string s) [].

(** [str.lower()] on ASCII text *)
Definition ascii_lower (c : ascii) : ascii :=
  let n := Ascii.nat_of_ascii c in
  if (65 <=? n)%nat && (n <=? 90)%nat then Ascii.ascii_of_nat (n + 32)%nat else c.
Definition lower (s : string) : string :=
  String.string_of_list_ascii (map ascii_lower (String.list_ascii_of_string s)).

(** [f"{x}"] of an optional string: [None] prints as [None] *)
Definition py_str_opt (o : option string) : string :=
  match o with Some s => s | None => "None" end.

(** events are compared when counting calls in a trace *)
#[global] Instance event_eq_dec : EqDecision event.
Proof. solve_decision. Defined.

(** a Python exception value as a computation *)
Definition lift {A} (r : result A) : M A := ([], r).

(* ------------------------------------------------------------------ *)
(** ** IResource.__init__ and the ARN helpers *)

(** [IResource.__init__(self, arn, name, tags=None, region=None)]:
<<
    if not arn and not name: raise Exception("Resource name or ARN is required")
    self.name = name if name else arn.split('/')[-1]
    self.region = os.getenv('AWS_REGION', region) or arn.split(':')[3]
>>
    [env_region] is the value of [AWS_REGION] in the environment (a set
    variable may be empty); the result is the pair (name, region) of the
    new object. *)
Definition iresource_init (env_region : option string) (arn name : string)
    (region : option string) : result (string * string) :=
  if String.eqb arn "" && String.eqb name "" then
    Exc (OtherError "Resource name or ARN is required")
  else
    let name' := if String.eqb name "" then List.last (split_on "/" arn) "" else name in
    let from_arn :=
      match nth_error (split_on ":" arn) 3 with
      | Some r => Ok (name', r)
      | None => Exc (OtherError "list index out of range")
      end in
    match (match env_region with Some v => Some v | None => region end) with
    | Some r => if String.eqb r "" then from_arn else Ok (name', r)
    | None => from_arn
    end.

(** Responses of the sts and iam clients used by [get_account_info]. *)
Record account_provider := {
  get_caller_identity : result (option string);      (* the [Account] entry *)
  list_account_aliases : result (list string)
}.

Section Account.
Variable env_region : option string.
Variable ap : account_provider.

(** [get_account_info(region=None)]: the caller identity with
    [region] set to the sts client's region, which [get_client] resolves;
    returns (Account, region). *)
Definition get_account_info (region : option string) : M (option string * string) :=
  do account <- api "get_caller_identity" (get_caller_identity ap);
  let region_name := resolve_region env_region region in
  do_ api "list_account_aliases" (list_account_aliases ap);
  ret (account, region_name).

(** [get_base_arn(service_name, region=None, with_region=True, with_account_id=True)]:
<<
    account_id = ''
    if with_region or with_account_id:
        caller_identity = get_account_info()
        account_id = caller_identity.get('Account', '')
        region = caller_identity.get('region', None) if with_region else ''
    return f'arn:aws:{service_name}:{region}:{account_id}:'
>> *)
Definition get_base_arn (service_name : string) (region : option string)
    (with_region with_account_id : bool) : M string :=
  if with_region || with_account_id then
    do ci <- get_account_info None;
    let account_id := default "" (fst ci) in
    let region := if with_region then Some (snd ci) else Some "" in
    ret ("arn:aws:" +:+ service_name +:+ ":" +:+ py_str_opt region +:+ ":" +:+ account_id +:+ ":")
  else
    ret ("arn:aws:" +:+ service_name +:+ ":" +:+ py_str_opt region +:+ ":" +:+ "" +:+ ":").

(** [Codepipeline.__init__(self, arn, name=None, tags=None, region=None)]:
    [if not name: name = arn.split(':')[-1]], then [IResource.__init__]. *)
Definition codepipeline_init (arn name : string) (region : option string)
    : result (string * string) :=
  let name := if String.eqb name "" then List.last (split_colon arn) "" else name in
  iresource_init env_region arn name region.


(** [CodepipelineFactory.create_by_name(self, name)]: returns the ARN,
    name and region of the built Codepipeline. *)
Definition codepipeline_create_by_name (name : string) : M (string * (string * string)) :=
  do base <- get_base_arn "codepipeline" None true true;
  let arn := base +:+ ":" +:+ name in
  do nr <- lift (codepipeline_init arn name None);
  ret (arn, nr).

End Account.

(* ------------------------------------------------------------------ *)
(** ** ExecutionContext.from_environment and get_context *)

(** the environment variables read by [utils/context.py] *)
Record environ := mkEnviron {
  env_dry_run : option string;
  env_auto_approve : option string;
  env_aws_region : option string;
  env_aws_profile : option string
}.

(** [ExecutionContext.from_environment()] *)
Definition from_environment (env : environ) : ExecutionContext :=
  mkContext (String.eqb (lower (default "false" (env_dry_run env))) "true")
            (String.eqb (lower (default "false" (env_auto_approve env))) "true")
            (env_aws_region env) (env_aws_profile env).

(** [ExecutionContext.get_context()]: a classmethod, so [self.context] is
    the class attribute (initially the dataclass default [None]); a
    dataclass instance is truthy.  Returns the new class attribute and the
    context. *)
Definition get_context (cls_context : option ExecutionContext) (env : environ)
    : option ExecutionContext * ExecutionContext :=
  match cls_context with
  | Some c => (cls_context, c)
  | None => let c := from_environment env in (Some c, c)
  end.

(* ------------------------------------------------------------------ *)
(** ** SubnetResource.clean *)

(** the parts of a network interface description that [clean] reads *)
Record attachment := mkAttachment {
  att_instance_id : option string;      (* Attachment.InstanceId *)
  att_attachment_id : option string     (* Attachment.AttachmentId *)
}.
Record ni := mkNi {
  ni_id : string;                       (* NetworkInterfaceId *)
  ni_type : option string;              (* InterfaceType *)
  ni_status : string;                   (* Status *)
  ni_attachment : option attachment     (* Attachment *)
}.

(** a route table and its associations *)
Record assoc := mkAssoc {
  as_main : option bool;                (* Main *)
  as_subnet_id : option string;         (* SubnetId *)
  as_id : option string                 (* RouteTableAssociationId *)
}.
Record route_table := mkRouteTable {
  rt_id : string;
  rt_associations : option (list assoc)
}.

(** Responses of the ec2 client to the calls of [clean], by argument. *)
Record ec2_clean_provider := {
  list_subnet_interfaces : string -> result (list ni);   (* describe_network_interfaces *)
  detach_network_interface : string -> result unit;
  delete_network_interface : string -> result unit;
  describe_route_tables : string -> result (list route_table);
  disassociate_route_table : string -> result unit
}.

(** an API call recorded with its identifying argument *)
Definition api_arg {A} (name arg : string) (resp : result A) : M A :=
  ([Call (name +:+ "(" +:+ arg +:+ ")")], resp).

(** [for x in l: f(x)] *)
Fixpoint iter_M {A} (f : A -> M unit) (l : list A) : M unit :=
  match l with [] => ret tt | x :: l' => do_ f x; iter_M f l' end.

Definition aws_managed_types : list string :=
  ["nat_gateway"; "vpc_endpoint"; "load_balancer"; "lambda"].

(** [if eni_type in [...]] *)
Definition is_aws_managed (e : ni) : bool :=
  existsb (String.eqb (default "interface" (ni_type e))) aws_managed_types.

(** [if eni.get('Attachment', {}).get('InstanceId')] *)
Definition attached_to_instance (e : ni) : bool :=
  match ni_attachment e with
  | Some a => match att_instance_id a with Some s => negb (String.eqb s "") | None => false end
  | None => false
  end.

(** the interfaces [clean] goes on to delete: neither skip applies *)
Definition eni_cleanable (e : ni) : bool := negb (is_aws_managed e) && negb (attached_to_instance e).

Section SubnetClean.
Variable p : ec2_clean_provider.
Variable context : option ExecutionContext.

(** one iteration of the loop of [SubnetResource._clean_network_interfaces] *)
Definition clean_network_interface (e : ni) : M unit :=
  let prefix := opt_prefix context in
  let eni_id := ni_id e in
  let eni_type := default "interface" (ni_type e) in
  let status := ni_status e in
  if is_aws_managed e then
    log (prefix +:+ "Skipping AWS-managed network interface: " +:+ eni_id +:+ " (type: " +:+ eni_type +:+ ")")
  else if attached_to_instance e then
    log (prefix +:+ "Skipping network interface attached to instance: " +:+ eni_id)
  else
    do_ log (prefix +:+ "Cleaning network interface: " +:+ eni_id +:+ " (status: " +:+ status +:+ ")");
    if opt_dry_run context then log (prefix +:+ "Would delete network interface: " +:+ eni_id)
    else
      try_client
        (do_ (if String.eqb status "in-use" && bool_decide (is_Some (ni_attachment e)) then
                match ni_attachment e ≫= att_attachment_id with
                | Some attachment_id =>
                    do_ log (prefix +:+ "Detaching network interface: " +:+ eni_id);
                    api_arg "detach_network_interface" attachment_id
                            (detach_network_interface p attachment_id)
                | None => raise (OtherError "KeyError: 'AttachmentId'")
                end
              else ret tt);
         do_ api_arg "delete_network_interface" eni_id (delete_network_interface p eni_id);
         log (prefix +:+ "Deleted network interface: " +:+ eni_id))
        (fun c m => log (prefix +:+ "Failed to clean network interface " +:+ eni_id +:+ ": " +:+
                         exn_str (ClientError c m))).

(** [SubnetResource._clean_network_interfaces(self, context)] *)
Definition _clean_network_interfaces (subnet_id : string) : M unit :=
  let prefix := opt_prefix context in
  try_client
    (do enis <- api "describe_network_interfaces" (list_subnet_interfaces p subnet_id);
     iter_M clean_network_interface enis)
    (fun c m => log (prefix +:+ "Error listing network interfaces for subnet " +:+ subnet_id +:+
                     ": " +:+ exn_str (ClientError c m))).

(** the inner loop of [_clean_route_table_associations] for one association *)
Definition clean_association (subnet_id route_table_id : string) (a : assoc) : M unit :=
  let prefix := opt_prefix context in
  if bool_decide (as_subnet_id a = Some subnet_id) then
    match as_id a with
    | None => raise (OtherError "KeyError: 'RouteTableAssociationId'")
    | Some association_id =>
        do_ log (prefix +:+ "Disassociating route table " +:+ route_table_id +:+ " from subnet " +:+
                 subnet_id);
        if opt_dry_run context then log (prefix +:+ "Would disassociate route table: " +:+ association_id)
        else
          try_client
            (do_ api_arg "disassociate_route_table" association_id
                         (disassociate_route_table p association_id);
             log (prefix +:+ "Disassociated route table: " +:+ association_id))
            (fun c m => log (prefix +:+ "Failed to disassociate route table " +:+ association_id +:+
                             ": " +:+ exn_str (ClientError c m)))
    end
  else ret tt.

(** [any(assoc.get('Main', False) for assoc in route_table.get('Associations', []))] *)
Definition is_main_route_table (rt : route_table) : bool :=
  existsb (fun a => default false (as_main a)) (default [] (rt_associations rt)).

(** one iteration of the outer loop of [_clean_route_table_associations] *)
Definition clean_route_table (subnet_id : string) (rt : route_table) : M unit :=
  let prefix := opt_prefix context in
  if is_main_route_table rt then log (prefix +:+ "Skipping main route table: " +:+ rt_id rt)
  else iter_M (clean_association subnet_id (rt_id rt)) (default [] (rt_associations rt)).

(** [SubnetResource._clean_route_table_associations(self, context)] *)
Definition _clean_route_table_associations (subnet_id : string) : M unit :=
  let prefix := opt_prefix context in
  try_client
    (do rts <- api "describe_route_tables" (describe_route_tables p subnet_id);
     iter_M (clean_route_table subnet_id) rts)
    (fun c m => log (prefix +:+ "Error listing route table associations for subnet " +:+ subnet_id +:+
                     ": " +:+ exn_str (ClientError c m))).

(** [SubnetResource.clean(self, context)] *)
Definition subnet_clean (subnet_id : string) : M unit :=
  let prefix := opt_prefix context in
  do_ log (prefix +:+ "Cleaning dependencies for subnet: " +:+ subnet_id);
  do_ _clean_network_interfaces subnet_id;
  _clean_route_table_associations subnet_id.

End SubnetClean.

(* ------------------------------------------------------------------ *)
(** ** VPCResourceCollection.get_all_resources and the VPCFactory *)

(** [VPCResourceCollection.get_all_resources()]: the ten lists extended
    in field order into a new list *)
Definition get_all_resources (lh : lheap) (c : collection) : list vobj :=
  concat (map (fun f => read lh (get_field c f)) all_fields).

(** the part of a [describe_subnets] entry that discovery reads; a
    missing required key is [None] *)
Record subnet_data := mkSubnetData {
  sd_subnet_id : option string;         (* SubnetId *)
  sd_availability_zone : option string; (* AvailabilityZone *)
  sd_cidr_block : option string;        (* CidrBlock *)
  sd_tags : option (list tag);          (* Tags *)
  sd_owner_id : option string           (* OwnerId *)
}.

(** [for tag in tags: if tag.get('Key', '').lower() == 'name': name = tag.get('Value', subnet_id); break];
    a non-dict tag raises AttributeError on [.get] *)
Fixpoint subnet_name_from_tags (subnet_id : string) (tags : list tag) : result string :=
  match tags with
  | [] => Ok subnet_id
  | TagDict k v :: rest =>
      if String.eqb (lower (default "" k)) "name" then Ok (default subnet_id v)
      else subnet_name_from_tags subnet_id rest
  | TagOther :: _ => Exc (OtherError "'str' object has no attribute 'get'")
  end.

Section Discovery.
Variable env_region : option string.            (* os.getenv('AWS_REGION') *)
Variable factory_region : option string.        (* self.region of the factory *)

(** the body of the loop of [VPCFactory._discover_subnets] for one entry:
    the SubnetResource it builds (through [IResource.__init__]) and the
    debug line it logs *)
Definition discover_subnet (vpc_id : string) (d : subnet_data) : result (vobj * string) :=
  match sd_subnet_id d with
  | None => Exc (OtherError "'SubnetId'")                 (* KeyError *)
  | Some subnet_id =>
  match sd_availability_zone d with
  | None => Exc (OtherError "'AvailabilityZone'")
  | Some availability_zone =>
  match sd_cidr_block d with
  | None => Exc (OtherError "'CidrBlock'")
  | Some _ =>
      let tags := default [] (sd_tags d) in
      match subnet_name_from_tags subnet_id tags with
      | Exc e => Exc e
      | Ok name =>
          let arn := "arn:aws:ec2:" +:+ py_str_opt factory_region +:+ ":" +:+
                     default "" (sd_owner_id d) +:+ ":subnet/" +:+ subnet_id in
          match iresource_init env_region arn name factory_region with
          | Exc e => Exc e
          | Ok (name', _) =>
              Ok (new_vpc_resource arn name' vpc_id "subnet" subnet_id (Some tags),
                  "Discovered subnet: " +:+ subnet_id +:+ " (" +:+ name +:+ ") in " +:+ availability_zone)
          end
      end
  end end end.

(** the loop: its debug lines, the subnets appended before it ended and
    the exception that ended it, if any *)
Fixpoint discover_loop (vpc_id : string) (ds : list subnet_data)
    : list event * (list vobj * option exn) :=
  match ds with
  | [] => ([], ([], None))
  | d :: ds' =>
      match discover_subnet vpc_id d with
      | Exc e => ([], ([], Some e))
      | Ok (s, msg) =>
          let '(t, (l, err)) := discover_loop vpc_id ds' in (Log msg :: t, (s :: l, err))
      end
  end.

(** [VPCFactory._discover_subnets(self, vpc_id)]: every exception is
    caught and the subnets appended before it are returned *)
Definition _discover_subnets (describe : result (list subnet_data)) (vpc_id : string) : M (list vobj) :=
  do_ log ("Discovering subnets in VPC: " +:+ vpc_id);
  do_ emit (Call "describe_subnets");
  match describe with
  | Ok ds =>
      let '(t, (subnets, err)) := discover_loop vpc_id ds in
      do_ (t, Ok tt);
      do_ (match err with
           | Some e => log ("Error discovering subnets in VPC " +:+ vpc_id +:+ ": " +:+ exn_str e)
           | None => ret tt
           end);
      ret subnets
  | Exc e =>
      do_ log ("Error discovering subnets in VPC " +:+ vpc_id +:+ ": " +:+ exn_str e);
      ret []
  end.

(** [VPCFactory.create_vpc_resources(self, vpc_id)]: a new collection
    whose [subnets] attribute is the discovered list *)
Definition create_vpc_resources (describe : result (list subnet_data)) (lh : lheap) (vpc_id : string)
    : M (lheap * collection) :=
  do_ log ("Discovering resources in VPC: " +:+ vpc_id);
  let (lh1, c) := new_collection lh vpc_id in
  do subnets <- _discover_subnets describe vpc_id;
  let (lh2, loc) := alloc lh1 subnets in
  let c' := set_field c FSubnets loc in
  do_ log ("Discovered " +:+ pretty (length subnets) +:+ " subnets in VPC " +:+ vpc_id);
  ret (lh2, c').

(** the [type_mapping] of [create_by_resource_type] *)
Definition type_field (resource_type : string) : option rfield :=
  if String.eqb resource_type "subnet" then Some FSubnets
  else if String.eqb resource_type "security-group" then Some FSecurityGroups
  else if String.eqb resource_type "route-table" then Some FRouteTables
  else if String.eqb resource_type "network-acl" then Some FNetworkAcls
  else if String.eqb resource_type "network-interface" then Some FNetworkInterfaces
  else if String.eqb resource_type "nat-gateway" then Some FNatGateways
  else if String.eqb resource_type "vpc-endpoint" then Some FVpcEndpoints
  else if String.eqb resource_type "internet-gateway" then Some FInternetGateways
  else if String.eqb resource_type "elastic-ip" then Some FElasticIps
  else if String.eqb resource_type "vpc-peering-connection" then Some FVpcPeeringConnections
  else None.

(** [VPCFactory.create_by_resource_type(self, vpc_id, resource_type)]:
    the list [type_mapping.get(resource_type, [])] *)
Definition create_by_resource_type (describe : result (list subnet_data)) (lh : lheap)
    (vpc_id resource_type : string) : M (list vobj) :=
  do st <- create_vpc_resources describe lh vpc_id;
  match type_field resource_type with
  | Some f => ret (read (fst st) (get_field (snd st) f))
  | None => ret []
  end.

End Discovery.


(* ------------------------------------------------------------------ *)
(** ** Sample providers *)

(** an account [123456789012] without aliases *)
Definition demo_account : account_provider := {|
  get_caller_identity := Ok (Some "123456789012");
  list_account_aliases := Ok []
|}.

(** an ec2 client refusing [describe_subnets] *)
Definition denied_ec2 : ec2_provider := {|
  describe_subnets _ := Exc (ClientError "UnauthorizedOperation" "not authorized");
  describe_network_interfaces _ := Ok [];
  describe_instances _ := Ok [];
  delete_subnet _ := Ok tt
|}.

(** a subnet with an in-use interface [eni-1] attached by [attach-1] (to
    no instance), a NAT gateway interface [eni-2], and a non-main route
    table associated with [subnet-app] by [rtbassoc-1] *)
Definition demo_clean : ec2_clean_provider := {|
  list_subnet_interfaces _ :=
    Ok [mkNi "eni-1" None "in-use" (Some (mkAttachment None (Some "attach-1")));
        mkNi "eni-2" (Some "nat_gateway") "in-use" None];
  detach_network_interface _ := Ok tt;
  delete_network_interface _ := Ok tt;
  describe_route_tables _ :=
    Ok [mkRouteTable "rtb-1" (Some [mkAssoc (Some false) (Some "subnet-app") (Some "rtbassoc-1")])];
  disassociate_route_table _ := Ok tt
|}.
(* ================================================================== *)
(** * Properties *)

(** ** Dry-run and the CloudFront distribution *)

(** C1 (code_bug): with a context where dry_run and auto_approve are both
    true, [Distribution.remove] disables the distribution
    ([update_distribution]) and deletes it ([delete_distribution]), and
    [Distribution.clean] with the same context also calls
    [update_distribution]; no "Would ..." line is logged. *)
Theorem distribution_dry_run_mutates :
  let arn := "arn:aws:cloudfront::123456789012:distribution/EDFDVBD6EXAMPLE" in
  let id := "EDFDVBD6EXAMPLE" in
  trace (distribution_remove enabled_distribution arn id (Some dry_auto_context)) =
    [Log ("[DRY-RUN] Trying to delete resource: " +:+ arn);
     Call "get_distribution_config"; Call "update_distribution"; Call "get_waiter.wait";
     Log ("Successfully disabled distribution: " +:+ id);
     Call "delete_distribution";
     Log ("[DRY-RUN] Resource deleted: " +:+ arn)]
  /\ no_mutating (trace (distribution_remove enabled_distribution arn id (Some dry_auto_context)))
     = false
  /\ In (Call "update_distribution")
        (trace (distribution_clean enabled_distribution id (Some dry_auto_context))).
Proof. vm_compute. split; [reflexivity | split; [reflexivity | tauto]]. Qed.

(** ** The interactive branch of the confirmation gate *)

(** C5 (code_bug): when the context is given with dry_run = false and
    auto_approve = false, [_should_proceed] shows no prompt and raises
    TypeError, because it passes two arguments to the one-argument
    [ask_delete_confirm]. *)
Theorem should_proceed_interactive_raises (user_choice : bool) (name desc : string)
    (c : ExecutionContext) :
  dry_run c = false -> auto_approve c = false ->
  _should_proceed user_choice name (Some c) desc =
    ([], Exc (TypeError "ask_delete_confirm() takes 1 positional argument but 2 were given")).
Proof. intros Hd Ha. unfold _should_proceed. rewrite Hd, Ha. reflexivity. Qed.

Lemma should_proceed_interactive_raises_witness :
  _should_proceed true "my-bucket" (Some (mkContext false false None None)) "delete bucket" =
    ([], Exc (TypeError "ask_delete_confirm() takes 1 positional argument but 2 were given")).
Proof. apply (should_proceed_interactive_raises true "my-bucket" "delete bucket"
    (mkContext false false None None));
  reflexivity. Defined.

(** The one-argument call does what the claim describes: it prompts and
    returns the user's choice. *)
Lemma ask_delete_confirm_one_arg (user_choice : bool) (name : string) :
  outcome (ask_delete_confirm user_choice [AStr name]) = Ok user_choice.
Proof. reflexivity. Qed.

(** ** The client cache *)

Lemma string_length_append (s1 s2 : string) :
  String.length (s1 +:+ s2) = String.length s1 + String.length s2.
Proof. induction s1 as [|c s1 IH]; simpl; [reflexivity | now rewrite IH]. Qed.

(** A cache key [service_name + '_' + region] is never the bare service name. *)
Lemma cache_key_neq_service (service region : string) :
  service +:+ "_" +:+ region <> service.
Proof.
  intros Heq. apply (f_equal String.length) in Heq.
  rewrite !string_length_append in Heq. simpl in Heq. lia.
Qed.

(** C9 (code_bug): [get_client] tests [service_name] instead of [key]
    against the cache.  From any cache that has no entry named after the
    service, two calls with the same service and region create two
    distinct handles: the second call does not reuse the first. *)
Theorem get_client_recreates (env_region : option string) (clients : cache)
    (service_name : string) (region : option string) :
  service_name ∉ dom (entries clients) ->
  let (c1, h1) := get_client env_region clients service_name region in
  let (c2, h2) := get_client env_region c1 service_name region in
  h1 = Some (next_handle clients) /\ h2 = Some (S (next_handle clients)) /\ h1 <> h2.
Proof.
  intros Hnot. unfold get_client.
  set (key := service_name +:+ "_" +:+ resolve_region env_region region).
  rewrite decide_False by exact Hnot. simpl.
  rewrite decide_False.
  - simpl. rewrite !lookup_insert_eq. split; [reflexivity | split; [reflexivity | intros Heq; injection Heq; lia]].
  - rewrite dom_insert_L. intros Hin. apply elem_of_union in Hin as [Hin | Hin].
    + apply elem_of_singleton in Hin. apply (cache_key_neq_service service_name
        (resolve_region env_region region)). symmetry. exact Hin.
    + exact (Hnot Hin).
Qed.

Lemma get_client_recreates_witness :
  ("ec2" ∉ dom (entries (mkCache ∅ 0))) /\
  (let (c1, h1) := get_client None (mkCache ∅ 0) "ec2" (Some "eu-west-1") in
   let (c2, h2) := get_client None c1 "ec2" (Some "eu-west-1") in
   h1 = Some 0 /\ h2 = Some 1 /\ h1 <> h2).
Proof.
  split; [cbn [entries]; rewrite dom_empty_L; apply not_elem_of_empty |].
  apply (get_client_recreates None (mkCache ∅ 0) "ec2" (Some "eu-west-1")).
  cbn [entries]. rewrite dom_empty_L. apply not_elem_of_empty.
Defined.

(** By contrast the sibling [get_resource] reuses the cached handle. *)
Lemma get_resource_reuses (env_region : option string) (resources : cache)
    (service_name : string) (region : option string) :
  let (c1, h1) := get_resource env_region resources service_name region in
  let (c2, h2) := get_resource env_region c1 service_name region in
  h1 = h2 /\ c2 = c1.
Proof.
  unfold get_resource.
  set (key := service_name +:+ "_" +:+ resolve_region env_region region).
  destruct (decide (key ∈ dom (entries resources))) as [Hin | Hout]; simpl.
  - rewrite decide_True by exact Hin. split; reflexivity.
  - rewrite decide_True; [split; reflexivity |].
    simpl. rewrite dom_insert_L. set_solver.
Qed.

(** ** Single and batch removal *)

Section Removal.
Context {R : Type} (arn_of : R -> string) (remove : R -> option ExecutionContext -> M unit)
        (context : option ExecutionContext).

Lemma batch_step_eq (prefix : string) (r : R) :
  batch_step arn_of remove context prefix r =
    (batch_step_trace arn_of remove context prefix r, Ok (negb (raises remove context r))).
Proof.
  unfold batch_step, batch_step_trace, raises, outcome, try_any, bind, log, emit, ret.
  destruct (remove r context) as [t [a|e]]; simpl; rewrite ?app_nil_r; reflexivity.
Qed.

Lemma batch_loop_eq (prefix : string) (rs : list R) (s f : nat) :
  batch_loop arn_of remove context prefix rs s f =
    (concat (map (batch_step_trace arn_of remove context prefix) rs),
     Ok (s + length (List.filter (fun r => negb (raises remove context r)) rs),
         f + length (List.filter (raises remove context) rs))).
Proof.
  revert s f. induction rs as [|r rs IH]; intros s f; simpl.
  - rewrite !Nat.add_0_r. reflexivity.
  - unfold bind. rewrite batch_step_eq.
    destruct (raises remove context r) eqn:Hr; simpl; rewrite IH; cbn [List.filter];
      f_equal; f_equal; f_equal; lia.
Qed.

Lemma filter_negb_length (p : R -> bool) (rs : list R) :
  length (List.filter (fun r => negb (p r)) rs) = length rs - length (List.filter p rs).
Proof.
  pose proof (List.filter_length p rs). lia.
Qed.

(** C4: on a non-empty list of N resources of which exactly K have a
    [remove] that raises, the batch calls every [remove] in input order
    (the trace is the concatenation of every resource's events), raises
    nothing, and ends with the summary "N-K succeeded, K failed". *)
Theorem batch_removal_counts (rs : list R) :
  rs <> [] ->
  let K := length (List.filter (raises remove context) rs) in
  let prefix := opt_prefix context in
  _execute_batch_removal arn_of remove context rs =
    ((concat (map (batch_step_trace arn_of remove context prefix) rs) ++
      [Log (summary_message prefix (length rs - K) K)])%list, Ok tt).
Proof.
  intros Hne K prefix. destruct rs as [|r0 rs0]; [contradiction|].
  unfold _execute_batch_removal. fold prefix.
  set (rs := r0 :: rs0).
  unfold bind. rewrite batch_loop_eq. cbn [fst snd Nat.add].
  rewrite filter_negb_length. reflexivity.
Qed.

(** C6: when [remove] raises [e], the single-resource path logs the
    failure and re-raises [e], while the batch path on the same resource
    catches it and reports it as one failure. *)
Theorem single_removal_propagates (r : R) (e : exn) :
  outcome (remove r context) = Exc e ->
  let prefix := opt_prefix context in
  _execute_removal arn_of remove context r =
    ((Log (prefix +:+ "Processing resource: " +:+ arn_of r) :: trace (remove r context)) ++
     [Log ("Failed to remove resource " +:+ arn_of r +:+ ": " +:+ exn_str e)], Exc e)%list
  /\ _execute_batch_removal arn_of remove context [r] =
    ((Log (prefix +:+ "Processing resource: " +:+ arn_of r) ::
      trace (remove r context) ++
      [Log ("Failed to remove resource " +:+ arn_of r +:+ ": " +:+ exn_str e)]) ++
     [Log (summary_message prefix 0 1)], Ok tt)%list.
Proof.
  intros He prefix. unfold outcome in He.
  destruct (remove r context) as [t res] eqn:Hrm. simpl in He. subst res.
  unfold trace. cbn [fst]. split.
  - unfold _execute_removal, bind, log, emit, try_any, raise. fold prefix.
    rewrite Hrm. simpl. rewrite ?app_nil_r; reflexivity.
  - rewrite (batch_removal_counts [r]) by discriminate. fold prefix.
    cbn [map concat List.filter]. unfold batch_step_trace, raises, outcome. rewrite Hrm.
    simpl. rewrite ?app_nil_r; reflexivity.
Qed.

End Removal.

Lemma batch_removal_counts_witness :
  ["arn:aws:s3:::a"; "arn:aws:s3:::locked"; "arn:aws:s3:::b"] <> [] /\
  (let rs := ["arn:aws:s3:::a"; "arn:aws:s3:::locked"; "arn:aws:s3:::b"] in
   let K := length (List.filter (raises demo_remove demo_context) rs) in
   let prefix := opt_prefix demo_context in
   _execute_batch_removal (fun a => a) demo_remove demo_context rs =
     ((concat (map (batch_step_trace (fun a => a) demo_remove demo_context prefix) rs) ++
       [Log (summary_message prefix (length rs - K) K)])%list, Ok tt)).
Proof.
  split; [discriminate|].
  apply (batch_removal_counts (fun a => a) demo_remove demo_context
           ["arn:aws:s3:::a"; "arn:aws:s3:::locked"; "arn:aws:s3:::b"]).
  discriminate.
Defined.

Lemma single_removal_propagates_witness :
  outcome (demo_remove "arn:aws:s3:::locked" demo_context) =
    Exc (ClientError "AccessDenied" "Access Denied") /\
  (let r := "arn:aws:s3:::locked" in let e := ClientError "AccessDenied" "Access Denied" in
   let prefix := opt_prefix demo_context in
   _execute_removal (fun a => a) demo_remove demo_context r =
     ((Log (prefix +:+ "Processing resource: " +:+ r) :: trace (demo_remove r demo_context)) ++
      [Log ("Failed to remove resource " +:+ r +:+ ": " +:+ exn_str e)], Exc e)%list
   /\ _execute_batch_removal (fun a => a) demo_remove demo_context [r] =
     ((Log (prefix +:+ "Processing resource: " +:+ r) ::
       trace (demo_remove r demo_context) ++
       [Log ("Failed to remove resource " +:+ r +:+ ": " +:+ exn_str e)]) ++
      [Log (summary_message prefix 0 1)], Ok tt)%list).
Proof.
  split; [reflexivity|].
  apply (single_removal_propagates (fun a => a) demo_remove demo_context
           "arn:aws:s3:::locked" (ClientError "AccessDenied" "Access Denied")).
  reflexivity.
Defined.

(** ** Deletion eligibility of VPC resources *)

Lemma outcome_bind {A B} (m : M A) (k : A -> M B) :
  outcome (bind m k) = match outcome m with Ok a => outcome (k a) | Exc e => Exc e end.
Proof.
  unfold bind, outcome. destruct m as [t [a|e]]; simpl; [destruct (k a)|]; reflexivity.
Qed.

Lemma trace_bind {A B} (m : M A) (k : A -> M B) :
  trace (bind m k) = match outcome m with
                     | Ok a => (trace m ++ trace (k a))%list
                     | Exc _ => trace m end.
Proof.
  unfold bind, outcome, trace. destruct m as [t [a|e]]; simpl; [destruct (k a)|]; reflexivity.
Qed.

Lemma no_mutating_app (t1 t2 : list event) :
  no_mutating (t1 ++ t2) = no_mutating t1 && no_mutating t2.
Proof. unfold no_mutating. apply forallb_app. Qed.

Lemma elem_here {A} (x : A) (l : list A) : x ∈ x :: l.
Proof. apply elem_of_cons. left. reflexivity. Qed.

Lemma elem_further {A} (x y : A) (l : list A) : x ∈ l -> x ∈ y :: l.
Proof. intros Hx. apply elem_of_cons. right. exact Hx. Qed.

Section Eligibility.
Context `{VPCResourceOps}.

(** C2: when [is_default_resource()] returns true, [can_delete()]
    returns false right after it, before any dependency or usage check,
    and [remove()] logs and returns without any provider call other than
    those of [is_default_resource()] itself (so none that mutates, when
    [is_default_resource()] only queries). *)
Theorem default_resource_protected (user_choice : bool) (context : option ExecutionContext)
    (h : heap) (o : vobj) :
  outcome (is_default_resource o) = Ok true ->
  can_delete h o =
    ((trace (is_default_resource o) ++ [Log ("Cannot delete default resource: " +:+ v_arn o)])%list,
     Ok false)
  /\ vpc_remove user_choice context h o =
    ((Log (opt_prefix context +:+ msg_attempt o) :: trace (is_default_resource o)) ++
     [Log ("Cannot delete default resource: " +:+ v_arn o); Log (msg_cannot o)], Ok tt)%list
  /\ (no_mutating (trace (is_default_resource o)) = true ->
      no_mutating (trace (vpc_remove user_choice context h o)) = true).
Proof.
  intros Hd.
  assert (Hc : can_delete h o =
    ((trace (is_default_resource o) ++ [Log ("Cannot delete default resource: " +:+ v_arn o)])%list,
     Ok false)).
  { unfold can_delete, base_can_delete, outcome, trace in *.
    destruct (is_default_resource o) as [t r]. simpl in Hd. subst r. simpl.
    rewrite app_nil_r. reflexivity. }
  assert (Hr : vpc_remove user_choice context h o =
    ((Log (opt_prefix context +:+ msg_attempt o) :: trace (is_default_resource o)) ++
     [Log ("Cannot delete default resource: " +:+ v_arn o); Log (msg_cannot o)], Ok tt)%list).
  { unfold vpc_remove. unfold bind at 1. simpl. rewrite Hc. simpl.
    rewrite <- app_assoc. reflexivity. }
  split; [exact Hc | split; [exact Hr |]].
  intros Hnm. rewrite Hr. change (trace (?t, _)) with t.
  rewrite <- app_comm_cons. unfold no_mutating in *. cbn [forallb].
  rewrite forallb_app, Hnm. reflexivity.
Qed.

Lemma dependencies_loop_blocked (h : heap) (a : string) (ds : list nat) (d : nat) (od : vobj) :
  d ∈ ds -> h !! d = Some od -> outcome (exists_resource od) = Ok true ->
  (forall d', d' ∈ ds -> exists od' b, h !! d' = Some od' /\ outcome (exists_resource od') = Ok b) ->
  outcome (dependencies_loop h a ds) = Ok false.
Proof.
  intros Hin Hd He Hall. induction ds as [|d0 ds IH]; [apply elem_of_nil in Hin; contradiction|].
  destruct (Hall d0 (elem_here _ _)) as (od0 & b0 & Hd0 & He0).
  cbn [dependencies_loop]. rewrite Hd0, outcome_bind, He0.
  destruct b0.
  - rewrite outcome_bind. reflexivity.
  - apply elem_of_cons in Hin as [-> | Hin].
    + rewrite Hd in Hd0. injection Hd0 as <-. rewrite He in He0. discriminate.
    + apply IH; [exact Hin |]. intros d' Hd'. apply Hall. apply elem_further. exact Hd'.
Qed.

Lemma dependencies_loop_local (h1 h2 : heap) (a : string) (ds : list nat) :
  (forall d, d ∈ ds -> h1 !! d = h2 !! d) ->
  dependencies_loop h1 a ds = dependencies_loop h2 a ds.
Proof.
  intros Hagree. induction ds as [|d ds IH]; [reflexivity|].
  cbn [dependencies_loop]. rewrite (Hagree d (elem_here _ _)).
  destruct (h2 !! d) as [od|]; [|reflexivity].
  rewrite IH; [reflexivity|]. intros d' Hd'. apply Hagree. apply elem_further. exact Hd'.
Qed.

(** C3: a dependency [d] of [r] whose [exists()] is true makes
    [r.can_delete()] false (provided the [is_default_resource()] and
    [exists()] calls made on the way return rather than raise); and
    [can_delete] reads only [r]'s direct dependencies: two stores that
    agree on them give the same run, whatever the dependencies of those
    dependencies are. *)
Theorem live_dependency_blocks (h : heap) (o : vobj) (d : nat) (od : vobj) :
  d ∈ dependencies o -> h !! d = Some od -> outcome (exists_resource od) = Ok true ->
  (exists b, outcome (is_default_resource o) = Ok b) ->
  (forall d', d' ∈ dependencies o ->
     exists od' b, h !! d' = Some od' /\ outcome (exists_resource od') = Ok b) ->
  outcome (can_delete h o) = Ok false
  /\ (forall h' : heap, (forall d', d' ∈ dependencies o -> h' !! d' = h !! d') ->
        can_delete h' o = can_delete h o).
Proof.
  intros Hin Hd He [b Hb] Hall. split.
  - unfold can_delete, base_can_delete. rewrite !outcome_bind, Hb.
    destruct b; [rewrite outcome_bind; reflexivity|].
    rewrite (dependencies_loop_blocked h (v_arn o) (dependencies o) d od Hin Hd He Hall).
    reflexivity.
  - intros h' Hagree. unfold can_delete, base_can_delete.
    rewrite (dependencies_loop_local h' h (v_arn o) (dependencies o) Hagree). reflexivity.
Qed.

End Eligibility.

(** ** The dependency graph *)

Lemma add_dependency_present (h : heap) (a b : nat) (sa : vobj) :
  h !! a = Some sa -> b ∈ dependencies sa -> add_dependency h a b = h.
Proof. intros Ha Hb. unfold add_dependency. rewrite Ha, decide_True by exact Hb. reflexivity. Qed.

Lemma add_dependency_lookup (h : heap) (a b : nat) (sa sb : vobj) :
  h !! a = Some sa -> h !! b = Some sb -> b ∉ dependencies sa -> a ∉ dependents sb ->
  forall i, add_dependency h a b !! i = add_edge a b i <$> h !! i.
Proof.
  intros Ha Hb Hnd Hnt i. unfold add_dependency. rewrite Ha, decide_False by exact Hnd.
  destruct (decide (a = b)) as [<-|Hab].
  - rewrite Ha in Hb. injection Hb as <-.
    rewrite lookup_insert_eq. cbn [dependents set_dependencies]. rewrite decide_False by exact Hnt.
    destruct (decide (i = a)) as [->|Hia].
    + rewrite !lookup_insert_eq, Ha. unfold add_edge. rewrite !decide_True by reflexivity.
      destruct sa; reflexivity.
    + rewrite !lookup_insert_ne by congruence. destruct (h !! i) as [o|]; [|reflexivity].
      unfold add_edge. rewrite !decide_False by exact Hia. cbn. rewrite ?app_nil_r.
      destruct o; reflexivity.
  - rewrite lookup_insert_ne by exact Hab. rewrite Hb, decide_False by exact Hnt.
    destruct (decide (i = b)) as [->|Hib].
    + rewrite lookup_insert_eq, Hb. unfold add_edge.
      rewrite decide_False by congruence. rewrite decide_True by reflexivity.
      cbn. rewrite ?app_nil_r. destruct sb; reflexivity.
    + rewrite lookup_insert_ne by congruence. destruct (decide (i = a)) as [->|Hia].
      * rewrite lookup_insert_eq, Ha. unfold add_edge.
        rewrite decide_True by reflexivity. rewrite decide_False by congruence.
        cbn. rewrite ?app_nil_r. destruct sa; reflexivity.
      * rewrite lookup_insert_ne by congruence. destruct (h !! i) as [o|]; [|reflexivity].
        unfold add_edge. rewrite !decide_False by congruence. cbn. rewrite ?app_nil_r.
        destruct o; reflexivity.
Qed.

Lemma add_dependency_wf (h : heap) (a b : nat) :
  heap_wf h -> is_Some (h !! a) -> is_Some (h !! b) ->
  heap_wf (add_dependency h a b) /\ edep (add_dependency h a b) a b.
Proof.
  intros [Hnd Hsym] [sa Ha] [sb Hb].
  destruct (decide (b ∈ dependencies sa)) as [Hin|Hnin].
  { rewrite (add_dependency_present h a b sa Ha Hin).
    split; [split; assumption | exists sa; split; assumption]. }
  assert (Hnt : a ∉ dependents sb).
  { intros Ht. apply Hnin.
    destruct (proj2 (Hsym a b) (ex_intro _ sb (conj Hb Ht))) as (o & Ho & Hj).
    rewrite Ha in Ho. injection Ho as <-. exact Hj. }
  pose proof (add_dependency_lookup h a b sa sb Ha Hb Hnin Hnt) as Hl.
  assert (E1 : forall i j, edep (add_dependency h a b) i j <-> edep h i j \/ (i = a /\ j = b)).
  { intros i j. unfold edep. rewrite Hl. split.
    - intros (o & Ho & Hj). apply fmap_Some in Ho as (oi & Hhi & ->).
      unfold add_edge in Hj. cbn [dependencies] in Hj.
      apply elem_of_app in Hj as [Hj|Hj]; [left; exists oi; split; assumption|].
      destruct (decide (i = a)) as [->|Hia].
      + right. split; [reflexivity|]. apply list_elem_of_singleton in Hj. exact Hj.
      + apply elem_of_nil in Hj. contradiction.
    - intros [(o & Ho & Hj) | [-> ->]].
      + exists (add_edge a b i o). rewrite Ho. split; [reflexivity|].
        unfold add_edge. cbn [dependencies]. apply elem_of_app. left. exact Hj.
      + exists (add_edge a b a sa). rewrite Ha. split; [reflexivity|].
        unfold add_edge. cbn [dependencies]. rewrite decide_True by reflexivity.
        apply elem_of_app. right. apply list_elem_of_singleton. reflexivity. }
  assert (E2 : forall j i, edent (add_dependency h a b) j i <-> edent h j i \/ (j = b /\ i = a)).
  { intros j i. unfold edent. rewrite Hl. split.
    - intros (o & Ho & Hi). apply fmap_Some in Ho as (oj & Hhj & ->).
      unfold add_edge in Hi. cbn [dependents] in Hi.
      apply elem_of_app in Hi as [Hi|Hi]; [left; exists oj; split; assumption|].
      destruct (decide (j = b)) as [->|Hjb].
      + right. split; [reflexivity|]. apply list_elem_of_singleton in Hi. exact Hi.
      + apply elem_of_nil in Hi. contradiction.
    - intros [(o & Ho & Hi) | [-> ->]].
      + exists (add_edge a b j o). rewrite Ho. split; [reflexivity|].
        unfold add_edge. cbn [dependents]. apply elem_of_app. left. exact Hi.
      + exists (add_edge a b b sb). rewrite Hb. split; [reflexivity|].
        unfold add_edge. cbn [dependents]. rewrite decide_True by reflexivity.
        apply elem_of_app. right. apply list_elem_of_singleton. reflexivity. }
  split; [split|].
  - intros i o Hi. rewrite Hl in Hi. apply fmap_Some in Hi as (oi & Hhi & ->).
    destruct (Hnd i oi Hhi) as [N1 N2]. unfold add_edge. cbn [dependencies dependents]. split.
    + destruct (decide (i = a)) as [->|]; [|rewrite app_nil_r; exact N1].
      rewrite Ha in Hhi. injection Hhi as <-.
      apply NoDup_app. split; [exact N1|]. split; [|apply NoDup_singleton].
      intros x Hx Hx'. apply list_elem_of_singleton in Hx'. subst x. contradiction.
    + destruct (decide (i = b)) as [->|]; [|rewrite app_nil_r; exact N2].
      rewrite Hb in Hhi. injection Hhi as <-.
      apply NoDup_app. split; [exact N2|]. split; [|apply NoDup_singleton].
      intros x Hx Hx'. apply list_elem_of_singleton in Hx'. subst x. contradiction.
  - intros i j. rewrite E1, E2, Hsym. intuition.
  - apply E1. right. split; reflexivity.
Qed.

Lemma insert_new_edep (h : heap) (i : nat) (o : vobj) (k j : nat) :
  h !! i = None -> dependencies o = [] -> edep (<[i := o]> h) k j <-> edep h k j.
Proof.
  intros Hi Hd. unfold edep. destruct (decide (k = i)) as [->|Hki].
  - rewrite lookup_insert_eq, Hi. split; intros (o' & Ho' & Hm); [|discriminate].
    injection Ho' as <-. rewrite Hd in Hm. apply elem_of_nil in Hm. contradiction.
  - rewrite lookup_insert_ne by congruence. reflexivity.
Qed.

Lemma insert_new_edent (h : heap) (i : nat) (o : vobj) (k j : nat) :
  h !! i = None -> dependents o = [] -> edent (<[i := o]> h) k j <-> edent h k j.
Proof.
  intros Hi Hd. unfold edent. destruct (decide (k = i)) as [->|Hki].
  - rewrite lookup_insert_eq, Hi. split; intros (o' & Ho' & Hm); [|discriminate].
    injection Ho' as <-. rewrite Hd in Hm. apply elem_of_nil in Hm. contradiction.
  - rewrite lookup_insert_ne by congruence. reflexivity.
Qed.

Lemma reachable_wf (h : heap) : reachable h -> heap_wf h.
Proof.
  induction 1 as [| h i arn name vpc_id rt nid tags Hr [Hnd Hsym] Hi | h a b Hr IH Ha Hb].
  - split.
    + intros i o Ho. rewrite lookup_empty in Ho. discriminate.
    + intros a b. unfold edep, edent.
      split; intros (o & Ho & _); rewrite lookup_empty in Ho; discriminate.
  - split.
    + intros k ok Hok. destruct (decide (k = i)) as [->|Hki].
      * rewrite lookup_insert_eq in Hok. injection Hok as <-. split; constructor.
      * rewrite lookup_insert_ne in Hok by congruence. exact (Hnd k ok Hok).
    + intros a b. rewrite insert_new_edep, insert_new_edent by (assumption || reflexivity).
      apply Hsym.
  - apply (add_dependency_wf h a b IH Ha Hb).
Qed.

Lemma add_dependency_iter (h : heap) (a b n : nat) :
  heap_wf h -> is_Some (h !! a) -> is_Some (h !! b) ->
  Nat.iter (S n) (fun h => add_dependency h a b) h = add_dependency h a b.
Proof.
  intros Hwf Ha Hb. induction n as [|n IH]; [reflexivity|].
  rewrite Nat.iter_succ, IH.
  destruct (add_dependency_wf h a b Hwf Ha Hb) as [_ (o & Ho & Hj)].
  exact (add_dependency_present _ a b o Ho Hj).
Qed.

(** C7: in a store built by the constructor and [add_dependency], any
    number [n+1] of calls [a.add_dependency(b)] leaves the store the same
    as one call; afterwards [b] occurs exactly once in [a.dependencies],
    [a] exactly once in [b.dependents], no list holds a duplicate and the
    two lists of every object describe the same edges. *)
Theorem add_dependency_idempotent (h : heap) (a b n : nat) :
  reachable h -> is_Some (h !! a) -> is_Some (h !! b) ->
  let h' := Nat.iter (S n) (fun h => add_dependency h a b) h in
  h' = add_dependency h a b /\ heap_wf h' /\
  exists oa ob, h' !! a = Some oa /\ h' !! b = Some ob /\
    count_occ Nat.eq_dec (dependencies oa) b = 1 /\
    count_occ Nat.eq_dec (dependents ob) a = 1.
Proof.
  intros Hr Ha Hb h'.
  pose proof (reachable_wf h Hr) as Hwf.
  assert (He : h' = add_dependency h a b) by exact (add_dependency_iter h a b n Hwf Ha Hb).
  rewrite He.
  destruct (add_dependency_wf h a b Hwf Ha Hb) as [[Hnd Hsym] (oa & Hoa & Hba)].
  destruct (proj1 (Hsym a b) (ex_intro _ oa (conj Hoa Hba))) as (ob & Hob & Hab).
  split; [reflexivity|]. split; [split; assumption|].
  exists oa, ob. split; [exact Hoa|]. split; [exact Hob|]. split.
  - exact (proj1 (NoDup_count_occ' Nat.eq_dec _) (proj1 (NoDup_ListNoDup _) (proj1 (Hnd a oa Hoa)))
             b (proj1 (list_elem_of_In _ _) Hba)).
  - exact (proj1 (NoDup_count_occ' Nat.eq_dec _) (proj1 (NoDup_ListNoDup _) (proj2 (Hnd b ob Hob)))
             a (proj1 (list_elem_of_In _ _) Hab)).
Qed.

Lemma demo_heap_reachable : reachable demo_heap.
Proof.
  apply reach_add; [| vm_compute; eexists; reflexivity | vm_compute; eexists; reflexivity].
  apply reach_new; [| reflexivity]. apply reach_new; [| reflexivity]. apply reach_empty.
Qed.

Lemma add_dependency_idempotent_witness :
  reachable demo_heap /\ is_Some (demo_heap !! 1) /\ is_Some (demo_heap !! 0) /\
  Nat.iter 3 (fun h => add_dependency h 1 0) demo_heap = add_dependency demo_heap 1 0.
Proof.
  assert (Hr : reachable demo_heap) by exact demo_heap_reachable.
  assert (H1 : is_Some (demo_heap !! 1)) by (vm_compute; eexists; reflexivity).
  assert (H0 : is_Some (demo_heap !! 0)) by (vm_compute; eexists; reflexivity).
  split; [exact Hr|]. split; [exact H1|]. split; [exact H0|].
  exact (proj1 (add_dependency_idempotent demo_heap 1 0 2 Hr H1 H0)).
Defined.

Lemma default_resource_protected_witness :
  outcome (@is_default_resource (subnet_ops demo_ec2) (demo_subnet "subnet-default")) = Ok true /\
  no_mutating (trace (@vpc_remove (subnet_ops demo_ec2) true demo_context demo_heap
                                  (demo_subnet "subnet-default"))) = true.
Proof.
  assert (Hd : outcome (@is_default_resource (subnet_ops demo_ec2) (demo_subnet "subnet-default"))
               = Ok true) by (vm_compute; reflexivity).
  split; [exact Hd|].
  apply (proj2 (proj2 (@default_resource_protected (subnet_ops demo_ec2) true demo_context
                          demo_heap (demo_subnet "subnet-default") Hd))).
  vm_compute. reflexivity.
Defined.

Lemma live_dependency_blocks_witness :
  outcome (@can_delete (subnet_ops demo_ec2) demo_heap
             (set_dependencies (demo_subnet "subnet-app") [1])) = Ok false.
Proof.
  set (o := set_dependencies (demo_subnet "subnet-app") [1]).
  assert (Hin : 1 ∈ dependencies o) by (apply elem_of_cons; left; reflexivity).
  assert (Hd : demo_heap !! 1 = Some (set_dependents (demo_subnet "subnet-db") [0]))
    by (vm_compute; reflexivity).
  assert (He : outcome (@exists_resource (subnet_ops demo_ec2)
                          (set_dependents (demo_subnet "subnet-db") [0])) = Ok true)
    by (vm_compute; reflexivity).
  assert (Hdef : exists b, outcome (@is_default_resource (subnet_ops demo_ec2) o) = Ok b)
    by (exists false; vm_compute; reflexivity).
  assert (Hall : forall d', d' ∈ dependencies o -> exists od' b, demo_heap !! d' = Some od' /\
                   outcome (@exists_resource (subnet_ops demo_ec2) od') = Ok b).
  { intros d' Hd'. apply elem_of_cons in Hd' as [-> | Hd'].
    - exists (set_dependents (demo_subnet "subnet-db") [0]), true. split; assumption.
    - apply elem_of_nil in Hd'. contradiction. }
  exact (proj1 (@live_dependency_blocks (subnet_ops demo_ec2) demo_heap o 1 _ Hin Hd He Hdef Hall)).
Defined.

(** ** Collection filters *)

Lemma get_set_field_same (c : collection) (f : rfield) (loc : nat) :
  get_field (set_field c f loc) f = loc.
Proof. destruct c, f; reflexivity. Qed.

Lemma get_set_field_other (c : collection) (f g : rfield) (loc : nat) :
  f <> g -> get_field (set_field c f loc) g = get_field c g.
Proof. intros Hfg. destruct c, f, g; (reflexivity || congruence). Qed.

Lemma set_field_vpc_id (c : collection) (f : rfield) (loc : nat) :
  c_vpc_id (set_field c f loc) = c_vpc_id c.
Proof. destruct c, f; reflexivity. Qed.

Lemma alloc_spec (lh : lheap) (l : list vobj) (lh' : lheap) (i : nat) :
  alloc lh l = (lh', i) -> lh !! i = None /\ lh' = <[i := l]> lh.
Proof.
  unfold alloc. intros E. injection E as <- <-. split; [|reflexivity].
  apply not_elem_of_dom. apply is_fresh.
Qed.

Lemma new_collection_spec (lh : lheap) (v : string) (lh' : lheap) (c : collection) :
  new_collection lh v = (lh', c) -> lh ⊆ lh' /\ c_vpc_id c = v.
Proof.
  unfold new_collection.
  repeat (let E := fresh "E" in
          destruct (alloc _ _) as [? ?] eqn:E;
          apply alloc_spec in E as [? ->]; cbv beta iota).
  intros E. injection E as <- <-. split; [|reflexivity].
  repeat (etrans; [apply insert_subseteq; eassumption|]). reflexivity.
Qed.

Lemma all_fields_complete (f : rfield) : f ∈ all_fields.
Proof. destruct f; unfold all_fields; repeat (apply elem_of_cons; (left; reflexivity) || right). Qed.

Lemma read_weaken (lh lh' : lheap) (l : nat) :
  l ∈ dom lh -> lh ⊆ lh' -> read lh' l = read lh l.
Proof.
  intros Hl Hsub. apply elem_of_dom in Hl as [x Hx]. unfold read.
  rewrite Hx, (lookup_weaken lh lh' l x Hx Hsub). reflexivity.
Qed.

Section Filters.
Variable keep : vobj -> bool.
Variable lh0 : lheap.
Variable self : collection.
Hypothesis self_in_store : forall f, get_field self f ∈ dom lh0.

Lemma assign_filtered_step (done : rfield -> Prop) (lh : lheap) (c : collection) (g : rfield) :
  fresh_filtered_copy keep lh0 self done lh c ->
  let (lh', c') := assign_filtered keep self (lh, c) g in
  fresh_filtered_copy keep lh0 self (fun f => f = g \/ done f) lh' c'.
Proof.
  intros (Hsub & Hvpc & Hdone & Hdist). unfold assign_filtered.
  destruct (alloc lh _) as [lh' loc] eqn:Ea. apply alloc_spec in Ea as [Hloc ->].
  assert (Hold : forall f, done f -> get_field c f <> loc).
  { intros f Hf Heq. destruct (Hdone f Hf) as [_ Hl]. rewrite Heq, Hloc in Hl. discriminate. }
  split; [|split; [|split]].
  - etrans; [exact Hsub|]. apply insert_subseteq. exact Hloc.
  - rewrite set_field_vpc_id. exact Hvpc.
  - intros f [->|Hf].
    + rewrite get_set_field_same, lookup_insert_eq. split.
      * intros Hin. apply elem_of_dom in Hin as [x Hx].
        rewrite (lookup_weaken lh0 lh loc x Hx Hsub) in Hloc. discriminate.
      * rewrite (read_weaken lh0 lh) by (apply self_in_store || exact Hsub). reflexivity.
    + destruct (decide (g = f)) as [->|Hgf].
      * rewrite get_set_field_same, lookup_insert_eq. split.
        -- intros Hin. apply elem_of_dom in Hin as [x Hx].
           rewrite (lookup_weaken lh0 lh loc x Hx Hsub) in Hloc. discriminate.
        -- rewrite (read_weaken lh0 lh) by (apply self_in_store || exact Hsub). reflexivity.
      * rewrite get_set_field_other by exact Hgf.
        rewrite lookup_insert_ne by (apply not_eq_sym; apply Hold; exact Hf).
        apply Hdone. exact Hf.
  - intros f f' Hf Hf' Hne.
    destruct (decide (g = f)) as [<-|Hgf]; destruct (decide (g = f')) as [<-|Hgf'].
    + contradiction.
    + rewrite get_set_field_same, get_set_field_other by exact Hgf'.
      destruct Hf' as [->|Hf']; [contradiction|]. apply not_eq_sym. apply Hold. exact Hf'.
    + rewrite get_set_field_same, get_set_field_other by exact Hgf.
      destruct Hf as [->|Hf]; [contradiction|]. apply Hold. exact Hf.
    + rewrite !get_set_field_other by assumption.
      destruct Hf as [->|Hf]; [contradiction|]. destruct Hf' as [->|Hf']; [contradiction|].
      apply Hdist; assumption.
Qed.

Lemma assign_filtered_fold (fs : list rfield) (done : rfield -> Prop) (lh : lheap) (c : collection) :
  fresh_filtered_copy keep lh0 self done lh c ->
  let (lh', c') := foldl (assign_filtered keep self) (lh, c) fs in
  fresh_filtered_copy keep lh0 self (fun f => f ∈ fs \/ done f) lh' c'.
Proof.
  revert done lh c. induction fs as [|g fs IH]; intros done lh c Hinv.
  - cbn [foldl]. revert Hinv. unfold fresh_filtered_copy.
    intros (Hs & Hv & Hd & Hx). split; [exact Hs|]. split; [exact Hv|]. split.
    + intros f [Hf|Hf]; [apply elem_of_nil in Hf; contradiction|]. apply Hd. exact Hf.
    + intros f g [Hf|Hf] [Hg|Hg]; try (apply elem_of_nil in Hf; contradiction);
        try (apply elem_of_nil in Hg; contradiction). apply Hx; assumption.
  - cbn [foldl]. pose proof (assign_filtered_step done lh c g Hinv) as Hstep.
    destruct (assign_filtered keep self (lh, c) g) as [lh1 c1].
    specialize (IH _ lh1 c1 Hstep).
    destruct (foldl (assign_filtered keep self) (lh1, c1) fs) as [lh' c'].
    assert (Hmap : forall f, f ∈ g :: fs \/ done f -> f ∈ fs \/ (f = g \/ done f)).
    { intros f [Hf|Hf]; [|right; right; exact Hf].
      apply elem_of_cons in Hf as [->|Hf]; [right; left; reflexivity | left; exact Hf]. }
    destruct IH as (Hs & Hv & Hd & Hx). split; [exact Hs|]. split; [exact Hv|]. split.
    + intros f Hf. apply Hd, Hmap, Hf.
    + intros f f' Hf Hf' Hne. apply Hx; [apply Hmap, Hf | apply Hmap, Hf' | exact Hne].
Qed.

Lemma from_new_collection (lh : lheap) (c : collection) :
  new_collection lh0 (c_vpc_id self) = (lh, c) ->
  let (lh', c') := foldl (assign_filtered keep self) (lh, c) all_fields in
  fresh_filtered_copy keep lh0 self (fun _ => True) lh' c'.
Proof.
  intros Hn. apply new_collection_spec in Hn as [Hsub Hvpc].
  assert (H0 : fresh_filtered_copy keep lh0 self (fun _ => False) lh c).
  { split; [exact Hsub|]. split; [exact Hvpc|]. split; [intros f []|intros f g []]. }
  pose proof (assign_filtered_fold all_fields _ lh c H0) as Hf.
  destruct (foldl (assign_filtered keep self) (lh, c) all_fields) as [lh' c'].
  destruct Hf as (Hs & Hv & Hd & Hx). split; [exact Hs|]. split; [exact Hv|]. split.
  - intros f _. apply Hd. left. apply all_fields_complete.
  - intros f g _ _ Hne. apply Hx; [left; apply all_fields_complete | left; apply all_fields_complete | exact Hne].
Qed.

End Filters.

Lemma matches_tags_spec (tags : list (string * string)) (r : vobj) :
  matches_tags tags r = spec_has_all_tags tags r.
Proof.
  unfold matches_tags, spec_has_all_tags.
  destruct (v_tags r) as [[|t ts]|]; [| reflexivity |];
    destruct tags as [|kv tags]; try reflexivity; cbn [forallb default];
    change (tag_dict []) with (∅ : gmap string string); rewrite lookup_empty;
    rewrite bool_decide_eq_false_2 by discriminate; reflexivity.
Qed.

Section ExcludeDefault.
Context `{VPCResourceOps}.

Lemma filter_not_default_ok (l kept : list vobj) :
  outcome (filter_not_default l) = Ok kept -> kept = List.filter spec_not_default l.
Proof.
  revert kept. induction l as [|r l IH]; intros kept Hl.
  - injection Hl as <-. reflexivity.
  - cbn [filter_not_default] in Hl. rewrite outcome_bind in Hl.
    destruct (outcome (is_default_resource r)) as [d|e] eqn:Hd; [|discriminate].
    rewrite outcome_bind in Hl.
    destruct (outcome (filter_not_default l)) as [rest|e] eqn:Hr; [|discriminate].
    injection Hl as <-. rewrite (IH rest eq_refl).
    cbn [List.filter].
    replace (spec_not_default r) with (negb d)
      by (unfold spec_not_default; rewrite Hd; destruct d; reflexivity).
    destruct d; reflexivity.
Qed.

Lemma assign_not_default_ok (self : collection) (m : M (lheap * collection)) (f : rfield)
    (s' : lheap * collection) :
  outcome (assign_not_default self m f) = Ok s' ->
  exists s, outcome m = Ok s /\ s' = assign_filtered spec_not_default self s f.
Proof.
  unfold assign_not_default. rewrite outcome_bind.
  destruct (outcome m) as [[lh c]|e]; [|discriminate]. intros Hs. exists (lh, c). split; [reflexivity|].
  cbv beta iota in Hs. rewrite outcome_bind in Hs.
  destruct (outcome (filter_not_default (read lh (get_field self f)))) as [kept|e] eqn:Hk;
    [|discriminate].
  apply filter_not_default_ok in Hk. unfold assign_filtered. rewrite <- Hk.
  destruct (alloc lh kept) as [lh' loc]. injection Hs as <-. reflexivity.
Qed.

Lemma fold_not_default_ok (self : collection) (fs : list rfield) (m : M (lheap * collection))
    (s' : lheap * collection) :
  outcome (foldl (assign_not_default self) m fs) = Ok s' ->
  exists s, outcome m = Ok s /\ s' = foldl (assign_filtered spec_not_default self) s fs.
Proof.
  revert m. induction fs as [|g fs IH]; intros m Hm.
  - exists s'. split; [exact Hm | reflexivity].
  - cbn [foldl] in Hm. destruct (IH _ Hm) as (s1 & Hs1 & ->).
    destruct (assign_not_default_ok self m g s1 Hs1) as (s & Hs & ->).
    exists s. split; [exact Hs | reflexivity].
Qed.

End ExcludeDefault.

Lemma filter_by_tags_eq (lh : lheap) (self : collection) (tags : list (string * string)) :
  filter_by_tags lh self tags =
  foldl (assign_filtered (matches_tags tags) self) (new_collection lh (c_vpc_id self)) all_fields.
Proof. reflexivity. Qed.

(** C8: [filter_by_tags(tags)] and [exclude_default_resources()] return a
    collection of the same VPC whose ten lists are new list objects (none
    is a list of the store before the call, and no two are the same list)
    holding, per resource type, exactly the resources of the original list
    that carry every requested tag pair, respectively whose
    [is_default_resource()] is false; every list of the store before the
    call, among them the original collection's lists, is left unchanged.
    [exclude_default_resources] raises when an [is_default_resource()]
    call raises; when it returns, this holds. *)
Theorem collection_filters_fresh (lh : lheap) (self : collection) :
  (forall f, get_field self f ∈ dom lh) ->
  (forall tags lh' c', filter_by_tags lh self tags = (lh', c') ->
     lh ⊆ lh' /\ (forall f, lh' !! get_field self f = lh !! get_field self f) /\
     c_vpc_id c' = c_vpc_id self /\
     (forall f, (get_field c' f ∉ dom lh) /\
        lh' !! get_field c' f = Some (List.filter (spec_has_all_tags tags) (read lh (get_field self f)))) /\
     (forall f g, f <> g -> get_field c' f <> get_field c' g)) /\
  (forall (ops : VPCResourceOps) lh' c', outcome (exclude_default_resources lh self) = Ok (lh', c') ->
     lh ⊆ lh' /\ (forall f, lh' !! get_field self f = lh !! get_field self f) /\
     c_vpc_id c' = c_vpc_id self /\
     (forall f, (get_field c' f ∉ dom lh) /\
        lh' !! get_field c' f = Some (List.filter spec_not_default (read lh (get_field self f)))) /\
     (forall f g, f <> g -> get_field c' f <> get_field c' g)).
Proof.
  intros Hself.
  assert (Hgen : forall keep lh1 c1 lh' c', new_collection lh (c_vpc_id self) = (lh1, c1) ->
            foldl (assign_filtered keep self) (lh1, c1) all_fields = (lh', c') ->
            lh ⊆ lh' /\ (forall f, lh' !! get_field self f = lh !! get_field self f) /\
            c_vpc_id c' = c_vpc_id self /\
            (forall f, (get_field c' f ∉ dom lh) /\
               lh' !! get_field c' f = Some (List.filter keep (read lh (get_field self f)))) /\
            (forall f g, f <> g -> get_field c' f <> get_field c' g)).
  { intros keep lh1 c1 lh' c' Hn Hf.
    pose proof (from_new_collection keep lh self Hself lh1 c1 Hn) as Hc. rewrite Hf in Hc.
    destruct Hc as (Hs & Hv & Hd & Hx). split; [exact Hs|]. split.
    - intros f. pose proof (Hself f) as Hin. apply elem_of_dom in Hin as [x Hx'].
      rewrite Hx'. exact (lookup_weaken lh lh' _ x Hx' Hs).
    - split; [exact Hv|]. split.
      + intros f. apply Hd. exact I.
      + intros f g Hne. apply Hx; [exact I | exact I | exact Hne]. }
  split.
  - intros tags lh' c' Hfb. rewrite filter_by_tags_eq in Hfb.
    remember (new_collection lh (c_vpc_id self)) as st eqn:Hn in Hfb.
    destruct st as [lh1 c1]. symmetry in Hn.
    destruct (Hgen (matches_tags tags) lh1 c1 lh' c' Hn Hfb) as (Hs & Hu & Hv & Hd & Hx).
    split; [exact Hs|]. split; [exact Hu|]. split; [exact Hv|]. split; [|exact Hx].
    intros f. destruct (Hd f) as [Hfr Hl]. split; [exact Hfr|].
    rewrite Hl, (List.filter_ext _ _ (matches_tags_spec tags)). reflexivity.
  - intros ops lh' c' Hex. unfold exclude_default_resources in Hex.
    apply fold_not_default_ok in Hex as ([lh1 c1] & Hn & Hf).
    assert (Hn' : new_collection lh (c_vpc_id self) = (lh1, c1)).
    { change (Ok (new_collection lh (c_vpc_id self)) = Ok (lh1, c1)) in Hn.
      inversion Hn as [Hn0]. reflexivity. }
    exact (Hgen _ lh1 c1 lh' c' Hn' (eq_sym Hf)).
Qed.

Lemma collection_filters_fresh_witness :
  (forall f, get_field demo_collection.2 f ∈ dom demo_collection.1) /\
  demo_collection.1 ⊆ (filter_by_tags demo_collection.1 demo_collection.2 [("env", "dev")]).1.
Proof.
  assert (Hs : forall f, get_field demo_collection.2 f ∈ dom demo_collection.1)
    by (intros f; destruct f; apply (bool_decide_unpack _); vm_compute; exact I).
  split; [exact Hs|].
  exact (proj1 (proj1 (collection_filters_fresh demo_collection.1 demo_collection.2 Hs)
                  _ _ _ (surjective_pairing _))).
Defined.

(* ================================================================== *)
(** * Further properties of the code *)

(** ** Strings *)

Lemma string_of_list_ascii_app (l1 l2 : list ascii) :
  String.string_of_list_ascii (l1 ++ l2) =
  String.string_of_list_ascii l1 +:+ String.string_of_list_ascii l2.
Proof. induction l1 as [|c l1 IH]; [reflexivity|]. cbn. rewrite IH. reflexivity. Qed.

Lemma list_ascii_of_string_append (s1 s2 : string) :
  String.list_ascii_of_string (s1 +:+ s2) =
  (String.list_ascii_of_string s1 ++ String.list_ascii_of_string s2)%list.
Proof.
  induction s1 as [|c s1 IH]; [reflexivity|].
  change (String c s1 +:+ s2) with (String c (s1 +:+ s2)).
  change (String.list_ascii_of_string (String c (s1 +:+ s2)))
    with (c :: String.list_ascii_of_string (s1 +:+ s2)).
  rewrite IH. reflexivity.
Qed.

Lemma split_on_aux_nonempty (sep : ascii) (s cur : list ascii) : split_on_aux sep s cur <> [].
Proof.
  revert cur. induction s as [|c s IH]; intros cur; cbn; [discriminate|].
  destruct (Ascii.eqb c sep); [discriminate | apply IH].
Qed.

(** the last field of a split is a suffix without the separator *)
Lemma split_on_aux_last (sep : ascii) (s cur : list ascii) :
  ~ In sep cur ->
  exists pre suf, (rev cur ++ s)%list = (pre ++ suf)%list /\ ~ In sep suf /\
    List.last (split_on_aux sep s cur) "" = String.string_of_list_ascii suf.
Proof.
  revert cur. induction s as [|c s IH]; intros cur Hcur.
  - exists [], (rev cur). rewrite app_nil_r. split; [reflexivity|].
    split; [rewrite <- in_rev; exact Hcur | reflexivity].
  - cbn [split_on_aux]. destruct (Ascii.eqb c sep) eqn:Hc.
    + apply Ascii.eqb_eq in Hc. subst c.
      destruct (IH [] (fun H => H)) as (pre & suf & Heq & Hs & Hl).
      exists (rev cur ++ sep :: pre)%list, suf. split.
      * cbn in Heq. rewrite Heq, <- app_assoc. reflexivity.
      * split; [exact Hs|].
        pose proof (split_on_aux_nonempty sep s []) as Hne.
        destruct (split_on_aux sep s []) as [|x l]; [contradiction|].
        cbn [List.last]. exact Hl.
    + apply Ascii.eqb_neq in Hc.
      destruct (IH (c :: cur)) as (pre & suf & Heq & Hs & Hl).
      { intros [H|H]; [congruence | contradiction]. }
      exists pre, suf. split; [|split; assumption].
      cbn in Heq. rewrite <- app_assoc in Heq. exact Heq.
Qed.

Lemma split_on_last_suffix (sep : ascii) (s : string) :
  exists pre, s = pre +:+ List.last (split_on sep s) "" /\
         ~ In sep (String.list_ascii_of_string (List.last (split_on sep s) "")).
Proof.
  unfold split_on. destruct (split_on_aux_last sep (String.list_ascii_of_string s) [] (fun H => H))
    as (pre & suf & Heq & Hs & Hl).
  rewrite Hl. exists (String.string_of_list_ascii pre). split.
  - rewrite <- string_of_list_ascii_app. cbn in Heq. rewrite <- Heq.
    symmetry. apply String.string_of_list_ascii_of_string.
  - rewrite String.list_ascii_of_string_of_list_ascii. exact Hs.
Qed.

Lemma split_colon_aux_split_on (s cur : list ascii) :
  split_colon_aux s cur = split_on_aux ":"%char s cur.
Proof.
  revert cur. induction s as [|c s IH]; intros cur; [reflexivity|]. cbn.
  destruct (Ascii.eqb c ":"%char); rewrite IH; reflexivity.
Qed.

(** splitting a text that has no separator in a prefix *)
Lemma split_on_aux_skip (sep : ascii) (l rest cur : list ascii) :
  ~ In sep l -> split_on_aux sep (l ++ rest) cur = split_on_aux sep rest (rev l ++ cur).
Proof.
  revert cur. induction l as [|c l IH]; intros cur Hl; [reflexivity|].
  cbn [app split_on_aux]. destruct (Ascii.eqb c sep) eqn:Hc.
  - apply Ascii.eqb_eq in Hc. subst c. exfalso. apply Hl. left. reflexivity.
  - rewrite IH by (intros H; apply Hl; right; exact H). cbn. rewrite <- app_assoc. reflexivity.
Qed.

Lemma split_on_aux_field (sep : ascii) (l rest cur : list ascii) :
  ~ In sep l ->
  split_on_aux sep (l ++ sep :: rest) cur =
  String.string_of_list_ascii (rev cur ++ l) :: split_on_aux sep rest [].
Proof.
  intros Hl. rewrite split_on_aux_skip by exact Hl. cbn [split_on_aux].
  rewrite Ascii.eqb_refl. rewrite rev_app_distr, rev_involutive. reflexivity.
Qed.

Lemma split_on_aux_last_field (sep : ascii) (l cur : list ascii) :
  ~ In sep l -> split_on_aux sep l cur = [String.string_of_list_ascii (rev cur ++ l)].
Proof.
  intros Hl. rewrite <- (app_nil_r l) at 1. rewrite split_on_aux_skip by exact Hl.
  cbn. rewrite rev_app_distr, rev_involutive. reflexivity.
Qed.

(** ** IResource.__init__ *)

(** [IResource.__init__] raises "Resource name or ARN is required" exactly
    when both the ARN and the name are empty. *)
Theorem iresource_init_requires_arn_or_name (env_region : option string) (arn name : string)
    (region : option string) :
  iresource_init env_region arn name region = Exc (OtherError "Resource name or ARN is required")
  <-> arn = "" /\ name = "".
Proof.
  unfold iresource_init. split.
  - destruct (String.eqb arn "") eqn:Ha, (String.eqb name "") eqn:Hn; cbn [andb];
      [intros _; split; apply String.eqb_eq; assumption | ..];
      destruct (match env_region with Some v => Some v | None => region end) as [r|];
      try destruct (String.eqb r "");
      destruct (nth_error (split_on ":" arn) 3); discriminate.
  - intros [-> ->]. reflexivity.
Qed.

(** When [AWS_REGION] is set to a non-empty value and an ARN or a name is
    given, [IResource.__init__] succeeds and the object's region is that
    value, whatever its [region] argument and ARN. *)
Theorem iresource_region_env_overrides (arn name v : string) (region : option string) :
  (arn <> "" \/ name <> "") -> v <> "" ->
  exists name', iresource_init (Some v) arn name region = Ok (name', v).
Proof.
  intros Harn Hv. unfold iresource_init.
  assert (Hb : (String.eqb arn "" && String.eqb name "") = false).
  { destruct Harn as [H|H]; apply String.eqb_neq in H; rewrite H; [reflexivity|].
    apply andb_false_r. }
  rewrite Hb. apply String.eqb_neq in Hv. rewrite Hv. eexists. reflexivity.
Qed.

(** When [AWS_REGION] is unset and [region] is None or empty, or
    [AWS_REGION] is set to the empty string, the region of
    [IResource.__init__] is [arn.split(':')[3]]; with an empty ARN that
    index raises IndexError. *)
Theorem iresource_region_from_arn (env_region : option string) (arn name : string)
    (region : option string) :
  (arn <> "" \/ name <> "") ->
  match env_region with Some v => v = "" | None => region = None \/ region = Some "" end ->
  (forall r, nth_error (split_on ":" arn) 3 = Some r ->
     exists name', iresource_init env_region arn name region = Ok (name', r)) /\
  (arn = "" -> iresource_init env_region arn name region = Exc (OtherError "list index out of range")).
Proof.
  intros Harn Henv.
  assert (Hb : (String.eqb arn "" && String.eqb name "") = false).
  { destruct Harn as [H|H]; apply String.eqb_neq in H; rewrite H; [reflexivity|].
    apply andb_false_r. }
  assert (Hr : forall (k : result (string * string)),
            match (match env_region with Some v => Some v | None => region end) with
            | Some r => if String.eqb r "" then k else Ok ((if String.eqb name "" then List.last (split_on "/" arn) "" else name), r)
            | None => k end = k).
  { intros k. destruct env_region as [v|]; [subst v; reflexivity|].
    destruct Henv as [-> | ->]; reflexivity. }
  unfold iresource_init. rewrite Hb, Hr. split.
  - intros r Hn. rewrite Hn. eexists. reflexivity.
  - intros ->. reflexivity.
Qed.

(** When [IResource.__init__] is given an empty name and succeeds, the
    name it sets is a suffix of the ARN containing no ['/'] (the last
    ['/']-separated segment). *)
Theorem iresource_default_name (env_region : option string) (arn : string)
    (region : option string) (name' r : string) :
  iresource_init env_region arn "" region = Ok (name', r) ->
  exists pre, arn = pre +:+ name' /\ ~ In "/"%char (String.list_ascii_of_string name').
Proof.
  unfold iresource_init. rewrite (String.eqb_refl ""). cbn [andb].
  destruct (String.eqb arn "") eqn:Ha; [discriminate|].
  destruct (split_on_last_suffix "/" arn) as (pre & Hpre & Hs).
  intros H.
  assert (Hn : name' = List.last (split_on "/" arn) "").
  { destruct (match env_region with Some v => Some v | None => region end) as [x|];
      [destruct (String.eqb x "")|];
      try (destruct (nth_error (split_on ":" arn) 3); [|discriminate]);
      injection H as <- _; reflexivity. }
  subst name'. exists pre. split; assumption.
Qed.

Lemma str_app_assoc (s1 s2 s3 : string) : (s1 +:+ s2) +:+ s3 = s1 +:+ (s2 +:+ s3).
Proof.
  induction s1 as [|c s1 IH]; [reflexivity|].
  change ((String c s1 +:+ s2) +:+ s3) with (String c ((s1 +:+ s2) +:+ s3)).
  rewrite IH. reflexivity.
Qed.

Lemma split_on_field (sep : ascii) (s1 s2 : string) :
  ~ In sep (String.list_ascii_of_string s1) ->
  split_on sep (s1 +:+ String sep s2) = s1 :: split_on sep s2.
Proof.
  intros H. unfold split_on. rewrite list_ascii_of_string_append.
  change (String.list_ascii_of_string (String sep s2)) with (sep :: String.list_ascii_of_string s2).
  rewrite split_on_aux_field by exact H. cbn [rev app].
  rewrite String.string_of_list_ascii_of_string. reflexivity.
Qed.

Lemma split_on_single (sep : ascii) (s : string) :
  ~ In sep (String.list_ascii_of_string s) -> split_on sep s = [s].
Proof.
  intros H. unfold split_on. rewrite split_on_aux_last_field by exact H. cbn [rev app].
  rewrite String.string_of_list_ascii_of_string. reflexivity.
Qed.

Lemma split_colon_split_on (s : string) : split_colon s = split_on ":"%char s.
Proof. unfold split_colon, split_on. apply split_colon_aux_split_on. Qed.

(** ** get_base_arn and the ARNs built by name *)

(** With [with_region] or [with_account_id] set, [get_base_arn] returns
    [arn:aws:<service>:<region>:<account>:], where the region is the sts
    client's resolved region (or empty without [with_region]) and the
    account is [Account] or empty; an exception of [get_caller_identity]
    or [list_account_aliases] propagates. *)
Theorem get_base_arn_region_field (env_region : option string) (ap : account_provider)
    (service_name : string) (region : option string) (with_region with_account_id : bool) :
  with_region || with_account_id = true ->
  outcome (get_base_arn env_region ap service_name region with_region with_account_id) =
  match get_caller_identity ap, list_account_aliases ap with
  | Ok account, Ok _ =>
      Ok ("arn:aws:" +:+ service_name +:+ ":" +:+
          (if with_region then resolve_region env_region None else "") +:+ ":" +:+
          default "" account +:+ ":")
  | Exc e, _ => Exc e
  | Ok _, Exc e => Exc e
  end.
Proof.
  intros Hw. unfold get_base_arn. rewrite Hw. unfold get_account_info.
  destruct (get_caller_identity ap) as [acct|e]; [|reflexivity].
  destruct (list_account_aliases ap) as [al|e]; [|reflexivity].
  destruct with_region; reflexivity.
Qed.

(** For an account, region and name without colons (the name non-empty),
    [CodepipelineFactory.create_by_name] builds the ARN
    [arn:aws:codepipeline:<region>:<account>::<name>] (a doubled colon:
    [get_base_arn] already ends in one), and the pipeline keeps the name
    and that region; the ARN splits on [:] into seven fields, the sixth
    empty. *)
Theorem codepipeline_by_name_arn (env_region : option string) (ap : account_provider)
    (name account : string) (aliases : list string) :
  get_caller_identity ap = Ok (Some account) -> list_account_aliases ap = Ok aliases ->
  ~ In ":"%char (String.list_ascii_of_string account) ->
  ~ In ":"%char (String.list_ascii_of_string (resolve_region env_region None)) ->
  ~ In ":"%char (String.list_ascii_of_string name) -> name <> "" ->
  let region := resolve_region env_region None in
  let arn := "arn:aws:codepipeline:" +:+ region +:+ ":" +:+ account +:+ "::" +:+ name in
  outcome (codepipeline_create_by_name env_region ap name) = Ok (arn, (name, region)) /\
  split_colon arn = ["arn"; "aws"; "codepipeline"; region; account; ""; name].
Proof.
  intros Hci Hal Ha Hr Hn Hne region arn.
  assert (Hsplit : split_colon arn = ["arn"; "aws"; "codepipeline"; region; account; ""; name]).
  { rewrite split_colon_split_on.
    change arn with ("arn" +:+ String ":" ("aws" +:+ String ":" ("codepipeline" +:+ String ":"
      (region +:+ String ":" (account +:+ String ":" ("" +:+ String ":" name)))))).
    rewrite !split_on_field by (try assumption; cbn; intuition discriminate).
    rewrite split_on_single by exact Hn. reflexivity. }
  split; [|exact Hsplit].
  unfold codepipeline_create_by_name, get_base_arn, get_account_info.
  rewrite Hci, Hal. cbn [orb bind ret api outcome snd fst default py_str_opt].
  assert (Harn : ("arn:aws:" +:+ "codepipeline" +:+ ":" +:+ resolve_region env_region None +:+ ":" +:+
                  account +:+ ":") +:+ ":" +:+ name = arn).
  { rewrite !str_app_assoc. reflexivity. }
  unfold id. rewrite Harn. unfold lift, codepipeline_init.
  apply String.eqb_neq in Hne. rewrite Hne.
  unfold iresource_init. rewrite Hne, andb_false_r.
  assert (H3 : nth_error (split_on ":" arn) 3 = Some region).
  { rewrite <- split_colon_split_on, Hsplit. reflexivity. }
  rewrite H3. cbn. unfold region, resolve_region.
  destruct env_region as [v|]; cbn [default]; [|reflexivity].
  destruct (String.eqb v "") eqn:Hv; [|reflexivity].
  apply String.eqb_eq in Hv. subst v. reflexivity.
Qed.

(** ** ExecutionContext.get_context *)

(** [ExecutionContext.get_context] reads the environment only on its first
    call: the context it returns is cached in the class attribute, and a
    later call returns the same context whatever the environment is then. *)
Theorem get_context_first_read_wins (cls_context : option ExecutionContext) (env1 env2 : environ) :
  let '(cls1, c1) := get_context cls_context env1 in
  let '(cls2, c2) := get_context cls1 env2 in
  c1 = default (from_environment env1) cls_context /\ c2 = c1 /\ cls2 = Some c1.
Proof. destruct cls_context as [c|]; cbn; auto. Qed.

(** ** Mutating calls in traces *)

Lemma no_mutating_bind {A B} (m : M A) (k : A -> M B) :
  no_mutating (trace m) = true ->
  (forall a, outcome m = Ok a -> no_mutating (trace (k a)) = true) ->
  no_mutating (trace (bind m k)) = true.
Proof.
  intros Hm Hk. rewrite trace_bind. destruct (outcome m) as [a|e] eqn:Ho; [|exact Hm].
  rewrite no_mutating_app, Hm, (Hk a eq_refl). reflexivity.
Qed.

Lemma no_mutating_try_client {A} (m : M A) (h : string -> string -> M A) :
  no_mutating (trace m) = true ->
  (forall c msg, no_mutating (trace (h c msg)) = true) ->
  no_mutating (trace (try_client m h)) = true.
Proof.
  intros Hm Hh. destruct m as [t [a|[c msg| | | |]]]; try exact Hm.
  unfold try_client. specialize (Hh c msg). destruct (h c msg) as [t' r].
  unfold trace in *. cbn [fst] in *. rewrite no_mutating_app, Hm, Hh. reflexivity.
Qed.

Lemma no_mutating_log_each {A} (f : A -> string) (l : list A) :
  no_mutating (trace (log_each f l)) = true.
Proof.
  induction l as [|x l IH]; [reflexivity|]. cbn [log_each].
  apply no_mutating_bind; [reflexivity | intros; exact IH].
Qed.

Lemma no_mutating_iter_M {A} (f : A -> M unit) (l : list A) :
  (forall x, In x l -> no_mutating (trace (f x)) = true) ->
  no_mutating (trace (iter_M f l)) = true.
Proof.
  induction l as [|x l IH]; intros Hf; [reflexivity|]. cbn [iter_M].
  apply no_mutating_bind; [apply Hf; left; reflexivity|].
  intros _ _. apply IH. intros y Hy. apply Hf. right. exact Hy.
Qed.

Ltac nm_step :=
  match goal with
  | |- no_mutating (trace (bind _ _)) = true =>
      apply no_mutating_bind; [|intros ?a ?Ha; cbv beta]
  | |- no_mutating (trace (try_client _ _)) = true =>
      apply no_mutating_try_client; [|intros ?c ?msg; cbv beta]
  | |- no_mutating (trace (log_each _ _)) = true => apply no_mutating_log_each
  | |- no_mutating (trace (ret _)) = true => reflexivity
  | |- no_mutating (trace (raise _)) = true => reflexivity
  | |- no_mutating (trace (log _)) = true => reflexivity
  | |- no_mutating (trace (api _ _)) = true => reflexivity
  | |- no_mutating (trace (if ?b then _ else _)) = true => destruct b
  | |- no_mutating (trace (match ?x with _ => _ end)) = true => destruct x
  end.
Ltac nm := repeat nm_step.

Lemma subnet_dependencies_loop_read_only (p : ec2_provider) (h : heap) (a : string) (ds : list nat) :
  no_mutating (trace (@dependencies_loop (subnet_ops p) h a ds)) = true.
Proof.
  induction ds as [|d ds IH]; cbn [dependencies_loop]; [reflexivity|].
  destruct (h !! d) as [od|]; [|reflexivity].
  apply no_mutating_bind.
  - cbn [exists_resource subnet_ops]. unfold subnet_exists. nm.
  - intros [|] _; [reflexivity | exact IH].
Qed.

Lemma subnet_can_delete_read_only (p : ec2_provider) (h : heap) (o : vobj) :
  no_mutating (trace (@can_delete (subnet_ops p) h o)) = true.
Proof.
  unfold can_delete, base_can_delete. apply no_mutating_bind.
  - apply no_mutating_bind.
    + cbn [is_default_resource subnet_ops]. unfold subnet_is_default_resource. nm.
    + intros [|] _; [reflexivity | apply subnet_dependencies_loop_read_only].
  - intros [|] _; cbn [negb]; [|reflexivity].
    cbn [usage_checks subnet_ops]. unfold subnet_usage_checks. nm.
Qed.

(** ** VPCResource.remove and SubnetResource.remove *)

(** In dry-run mode, the [remove] shared by the VPC resources logs the
    attempt, runs [can_delete], and then either logs the "Would ..." line
    and the skip message (when deletion is allowed), logs that the
    resource cannot be deleted, or propagates the exception of
    [can_delete]; it never calls the resource's delete code. *)
Theorem vpc_remove_dry_run `{VPCResourceOps} (user_choice : bool)
    (context : option ExecutionContext) (h : heap) (o : vobj) :
  opt_dry_run context = true ->
  vpc_remove user_choice context h o =
  let prefix := opt_prefix context in
  let t := trace (can_delete h o) in
  match outcome (can_delete h o) with
  | Ok true =>
      ((Log (prefix +:+ msg_attempt o) :: t) ++
       [Log (prefix +:+ "Would " +:+ operation_desc o +:+ ": " +:+ v_name o); Log msg_skipped],
       Ok tt)%list
  | Ok false => ((Log (prefix +:+ msg_attempt o) :: t) ++ [Log (msg_cannot o)], Ok tt)%list
  | Exc e => (Log (prefix +:+ msg_attempt o) :: t, Exc e)
  end.
Proof.
  intros Hd. destruct context as [c|]; [|discriminate]. cbn in Hd.
  unfold vpc_remove, _should_proceed. rewrite Hd.
  unfold trace, outcome. destruct (can_delete h o) as [t [[|]|e]]; cbn;
    rewrite ?app_nil_r; reflexivity.
Qed.

(** [SubnetResource.can_delete] makes no mutating API call (delete,
    detach, disassociate, revoke, update, terminate, remove). *)
Theorem subnet_can_delete_no_mutation (p : ec2_provider) (h : heap) (o : vobj) :
  no_mutating (trace (@can_delete (subnet_ops p) h o)) = true.
Proof. apply subnet_can_delete_read_only. Qed.

(** In dry-run mode, [SubnetResource.remove] makes no mutating API call. *)
Theorem subnet_remove_dry_run_no_mutation (p : ec2_provider) (user_choice : bool)
    (context : option ExecutionContext) (h : heap) (o : vobj) :
  opt_dry_run context = true ->
  no_mutating (trace (@vpc_remove (subnet_ops p) user_choice context h o)) = true.
Proof.
  intros Hd. destruct context as [c|]; [|discriminate]. cbn in Hd.
  unfold vpc_remove. apply no_mutating_bind; [reflexivity|]. intros _ _.
  apply no_mutating_bind; [apply subnet_can_delete_read_only|]. intros [|] _; [|reflexivity].
  cbn [negb]. unfold _should_proceed. rewrite Hd. reflexivity.
Qed.

(** Outside dry-run with auto-approve, for a subnet that [can_delete]
    accepts, [SubnetResource.remove] calls [delete_subnet] exactly once
    and returns normally when that call succeeds or raises a ClientError;
    any other exception propagates. *)
Theorem subnet_remove_auto_approve (p : ec2_provider) (user_choice : bool)
    (c : ExecutionContext) (h : heap) (o : vobj) :
  dry_run c = false -> auto_approve c = true -> v_resource_type o = "subnet" ->
  outcome (@can_delete (subnet_ops p) h o) = Ok true ->
  count_occ event_eq_dec (trace (@vpc_remove (subnet_ops p) user_choice (Some c) h o))
            (Call "delete_subnet") = 1 /\
  outcome (@vpc_remove (subnet_ops p) user_choice (Some c) h o) =
  match delete_subnet p (v_native_id o) with
  | Ok _ | Exc (ClientError _ _) => Ok tt
  | Exc e => Exc e
  end.
Proof.
  intros Hdry Hauto Htype Hcd.
  pose proof (subnet_can_delete_read_only p h o) as Hnm.
  assert (Hcnt : forall t, no_mutating t = true ->
                 count_occ event_eq_dec t (Call "delete_subnet") = 0).
  { induction t as [|ev t IH]; intros Ht; [reflexivity|].
    cbn [no_mutating forallb] in Ht. apply andb_prop in Ht as [Hev Ht].
    cbn [count_occ]. destruct (event_eq_dec ev (Call "delete_subnet")) as [->|_];
      [discriminate | exact (IH Ht)]. }
  unfold vpc_remove. unfold trace, outcome in *.
  destruct (@can_delete (subnet_ops p) h o) as [t r]. cbn [snd fst] in Hcd, Hnm. subst r.
  unfold _should_proceed. rewrite Hdry, Hauto.
  cbn [delete_body subnet_ops]. unfold is_subnet. rewrite Htype. cbn [String.eqb].
  unfold subnet_delete_body.
  destruct (delete_subnet p (v_native_id o)) as [u|[cc mm| | | |]]; cbn;
    rewrite ?Hdry; cbn;
    repeat match goal with |- context [if ?b then _ else _] => destruct b end;
    cbn; rewrite ?count_occ_app, ?(Hcnt t Hnm); cbn; auto.
Qed.

(** When [describe_subnets] raises a ClientError,
    [SubnetResource.is_default_resource] answers True, so [can_delete]
    returns False for the subnet. *)
Theorem subnet_default_check_error_blocks (p : ec2_provider) (h : heap) (o : vobj)
    (code msg : string) :
  v_resource_type o = "subnet" ->
  describe_subnets p (v_native_id o) = Exc (ClientError code msg) ->
  outcome (@can_delete (subnet_ops p) h o) = Ok false.
Proof.
  intros Ht Hd. unfold can_delete, base_can_delete.
  rewrite !outcome_bind. cbn [is_default_resource subnet_ops]. unfold is_subnet. rewrite Ht.
  cbn [String.eqb]. unfold subnet_is_default_resource. rewrite Hd. reflexivity.
Qed.

Lemma log_each_eq {A} (f : A -> string) (l : list A) :
  log_each f l = (map (fun x => Log (f x)) l, Ok tt).
Proof.
  induction l as [|x l IH]; [reflexivity|]. cbn [log_each]. rewrite IH. reflexivity.
Qed.

Lemma subnet_usage_checks_true (p : ec2_provider) (o : vobj) :
  outcome (subnet_usage_checks p o) = Ok true <->
  describe_network_interfaces p (v_native_id o) = Ok [] /\
  exists res, describe_instances p (v_native_id o) = Ok res /\ concat res = [].
Proof.
  unfold subnet_usage_checks.
  destruct (describe_network_interfaces p (v_native_id o)) as [[|x l]|[c m| | | |]] eqn:E1;
  [destruct (describe_instances p (v_native_id o)) as [res|[c m| | | |]] eqn:E2|..]; cbn;
  try (destruct (concat res) eqn:E3; cbn); rewrite ?log_each_eq; cbn;
  (split; [intros H; try discriminate H | intros (H1 & r & H2 & H3)]);
  try congruence;
  try (split; [reflexivity | eexists; split; [reflexivity | assumption]]);
  try (injection H2 as <-; congruence).
Qed.

(** [SubnetResource.can_delete] returns True exactly when
    [VPCResource.can_delete] returns True, the subnet has no network
    interface, and its reservations hold no instance. *)
Theorem subnet_can_delete_true_iff (p : ec2_provider) (h : heap) (o : vobj) :
  v_resource_type o = "subnet" ->
  outcome (@can_delete (subnet_ops p) h o) = Ok true <->
  outcome (@base_can_delete (subnet_ops p) h o) = Ok true /\
  describe_network_interfaces p (v_native_id o) = Ok [] /\
  exists res, describe_instances p (v_native_id o) = Ok res /\ concat res = [].
Proof.
  intros Ht. unfold can_delete. rewrite outcome_bind.
  destruct (outcome (@base_can_delete (subnet_ops p) h o)) as [[|]|e]; cbn [negb].
  - cbn [usage_checks subnet_ops]. unfold is_subnet. rewrite Ht, String.eqb_refl.
    rewrite subnet_usage_checks_true. split; [intros H; split; [reflexivity | exact H] | intros [_ H]; exact H].
  - split; [intros H; discriminate H | intros [H _]; discriminate H].
  - split; [intros H; discriminate H | intros [H _]; discriminate H].
Qed.

(** ** SubnetResource.clean *)

Lemma in_trace_bind {A B} (m : M A) (k : A -> M B) (ev : event) :
  In ev (trace (bind m k)) ->
  In ev (trace m) \/ exists a, outcome m = Ok a /\ In ev (trace (k a)).
Proof.
  rewrite trace_bind. destruct (outcome m) as [a|e]; [|intros H; left; exact H].
  intros H. apply in_app_or in H as [H|H]; [left; exact H | right; exists a; split; [reflexivity | exact H]].
Qed.

Lemma in_trace_try_client {A} (m : M A) (h : string -> string -> M A) (ev : event) :
  In ev (trace (try_client m h)) -> In ev (trace m) \/ exists c msg, In ev (trace (h c msg)).
Proof.
  destruct m as [t [a|[c msg| | | |]]]; try (intros H; left; exact H).
  unfold try_client. destruct (h c msg) as [t' r] eqn:Eh. unfold trace. cbn [fst].
  intros H. apply in_app_or in H as [H|H]; [left; exact H|].
  right. exists c, msg. rewrite Eh. exact H.
Qed.

Lemma in_trace_iter_M {A} (f : A -> M unit) (l : list A) (ev : event) :
  In ev (trace (iter_M f l)) -> exists x, In x l /\ In ev (trace (f x)).
Proof.
  induction l as [|x l IH]; cbn [iter_M]; [intros []|].
  intros H. apply in_trace_bind in H as [H | (a & _ & H)].
  - exists x. split; [left; reflexivity | exact H].
  - destruct (IH H) as (y & Hy & Hev). exists y. split; [right; exact Hy | exact Hev].
Qed.

Ltac in_dec :=
  repeat match goal with
  | H : In _ (trace (bind _ _)) |- _ => apply in_trace_bind in H as [H | (?a & ?Ha & H)]
  | H : In _ (trace (try_client _ _)) |- _ => apply in_trace_try_client in H as [H | (?c & ?msg & H)]
  | H : In _ (trace (log _)) |- _ => destruct H as [<- | []]
  | H : In _ (trace (ret _)) |- _ => destruct H
  | H : In _ (trace (raise _)) |- _ => destruct H
  | H : In _ (trace (api _ _)) |- _ => destruct H as [<- | []]
  | H : In _ (trace (api_arg _ _ _)) |- _ => destruct H as [<- | []]
  | H : In _ (trace (if ?b then _ else _)) |- _ => destruct b eqn:?
  | H : In _ (trace (match ?x with _ => _ end)) |- _ => destruct x eqn:?
  | H : is_mutating (Log _) = true |- _ => discriminate H
  end.

(** the mutating calls made for one network interface *)
Lemma clean_network_interface_mutating (p : ec2_clean_provider) (context : option ExecutionContext)
    (e : ni) (ev : event) :
  In ev (trace (clean_network_interface p context e)) -> is_mutating ev = true ->
  eni_cleanable e = true /\ opt_dry_run context = false /\
  (ev = Call ("delete_network_interface(" +:+ ni_id e +:+ ")") \/
   exists a aid, ni_attachment e = Some a /\ att_attachment_id a = Some aid /\
     ni_status e = "in-use" /\ ev = Call ("detach_network_interface(" +:+ aid +:+ ")")).
Proof.
  intros Hin Hm. unfold clean_network_interface in Hin. cbv zeta in Hin. in_dec.
  all: unfold eni_cleanable;
    repeat match goal with
    | H : is_aws_managed _ = false |- _ => rewrite H
    | H : attached_to_instance _ = false |- _ => rewrite H
    end; cbn [negb andb]; (split; [reflexivity | split; [reflexivity|]]).
  - right. match goal with H : ni_attachment e ≫= att_attachment_id = Some ?aid |- _ =>
      destruct (ni_attachment e) as [at0|]; cbn in H; [|discriminate H];
      exists at0, aid; split; [reflexivity | split; [exact H|]] end.
    split; [|reflexivity].
    match goal with H : (ni_status e =? "in-use") && _ = true |- _ =>
      apply andb_prop in H as [Hs _]; apply String.eqb_eq; exact Hs end.
  - left. reflexivity.
Qed.

Lemma clean_network_interfaces_mutating (p : ec2_clean_provider) (context : option ExecutionContext)
    (subnet_id : string) (ev : event) :
  In ev (trace (_clean_network_interfaces p context subnet_id)) -> is_mutating ev = true ->
  exists enis e, list_subnet_interfaces p subnet_id = Ok enis /\ In e enis /\
    eni_cleanable e = true /\ opt_dry_run context = false /\
    (ev = Call ("delete_network_interface(" +:+ ni_id e +:+ ")") \/
     exists a aid, ni_attachment e = Some a /\ att_attachment_id a = Some aid /\
       ni_status e = "in-use" /\ ev = Call ("detach_network_interface(" +:+ aid +:+ ")")).
Proof.
  intros Hin Hm. unfold _clean_network_interfaces in Hin.
  apply in_trace_try_client in Hin as [Hin | (c & msg & Hin)];
    [|destruct Hin as [<- | []]; discriminate Hm].
  apply in_trace_bind in Hin as [Hin | (enis & Henis & Hin)];
    [destruct Hin as [<- | []]; discriminate Hm|].
  apply in_trace_iter_M in Hin as (e & He & Hin).
  exists enis, e. split; [exact Henis|]. split; [exact He|].
  exact (clean_network_interface_mutating p context e ev Hin Hm).
Qed.

Lemma clean_route_table_mutating (p : ec2_clean_provider) (context : option ExecutionContext)
    (subnet_id : string) (rt : route_table) (ev : event) :
  In ev (trace (clean_route_table p context subnet_id rt)) -> is_mutating ev = true ->
  exists a aid, is_main_route_table rt = false /\ In a (default [] (rt_associations rt)) /\
    as_subnet_id a = Some subnet_id /\ as_id a = Some aid /\ opt_dry_run context = false /\
    ev = Call ("disassociate_route_table(" +:+ aid +:+ ")").
Proof.
  intros Hin Hm. unfold clean_route_table in Hin. cbv zeta in Hin.
  destruct (is_main_route_table rt) eqn:Hmain; [destruct Hin as [<- | []]; discriminate Hm|].
  apply in_trace_iter_M in Hin as (a & Ha & Hin).
  unfold clean_association in Hin. cbv zeta in Hin.
  destruct (bool_decide (as_subnet_id a = Some subnet_id)) eqn:Hs; [|destruct Hin].
  apply bool_decide_eq_true in Hs.
  destruct (as_id a) as [aid|] eqn:Hid; [|destruct Hin].
  in_dec. exists a, aid. repeat split; assumption.
Qed.

Lemma clean_route_table_associations_mutating (p : ec2_clean_provider)
    (context : option ExecutionContext) (subnet_id : string) (ev : event) :
  In ev (trace (_clean_route_table_associations p context subnet_id)) -> is_mutating ev = true ->
  exists rts rt a aid, describe_route_tables p subnet_id = Ok rts /\ In rt rts /\
    is_main_route_table rt = false /\ In a (default [] (rt_associations rt)) /\
    as_subnet_id a = Some subnet_id /\ as_id a = Some aid /\ opt_dry_run context = false /\
    ev = Call ("disassociate_route_table(" +:+ aid +:+ ")").
Proof.
  intros Hin Hm. unfold _clean_route_table_associations in Hin.
  apply in_trace_try_client in Hin as [Hin | (c & msg & Hin)];
    [|destruct Hin as [<- | []]; discriminate Hm].
  apply in_trace_bind in Hin as [Hin | (rts & Hrts & Hin)];
    [destruct Hin as [<- | []]; discriminate Hm|].
  apply in_trace_iter_M in Hin as (rt & Hrt & Hin).
  destruct (clean_route_table_mutating p context subnet_id rt ev Hin Hm) as (a & aid & H).
  exists rts, rt, a, aid. split; [exact Hrts|]. split; [exact Hrt|]. exact H.
Qed.

(** Every mutating call of [_clean_network_interfaces] happens outside
    dry-run, on an interface of [describe_network_interfaces] that is
    neither AWS-managed nor attached to an instance:
    [delete_network_interface] on its id, or [detach_network_interface] on
    its attachment id when it is in use. *)
Theorem clean_network_interfaces_targets (p : ec2_clean_provider)
    (context : option ExecutionContext) (subnet_id : string) (ev : event) :
  In ev (trace (_clean_network_interfaces p context subnet_id)) -> is_mutating ev = true ->
  exists enis e, list_subnet_interfaces p subnet_id = Ok enis /\ In e enis /\
    eni_cleanable e = true /\ opt_dry_run context = false /\
    (ev = Call ("delete_network_interface(" +:+ ni_id e +:+ ")") \/
     exists a aid, ni_attachment e = Some a /\ att_attachment_id a = Some aid /\
       ni_status e = "in-use" /\ ev = Call ("detach_network_interface(" +:+ aid +:+ ")")).
Proof. apply clean_network_interfaces_mutating. Qed.

(** Every mutating call of [_clean_route_table_associations] happens
    outside dry-run and is [disassociate_route_table] on the id of an
    association of a non-main route table whose [SubnetId] is the cleaned
    subnet. *)
Theorem clean_route_table_associations_targets (p : ec2_clean_provider)
    (context : option ExecutionContext) (subnet_id : string) (ev : event) :
  In ev (trace (_clean_route_table_associations p context subnet_id)) -> is_mutating ev = true ->
  exists rts rt a aid, describe_route_tables p subnet_id = Ok rts /\ In rt rts /\
    is_main_route_table rt = false /\ In a (default [] (rt_associations rt)) /\
    as_subnet_id a = Some subnet_id /\ as_id a = Some aid /\ opt_dry_run context = false /\
    ev = Call ("disassociate_route_table(" +:+ aid +:+ ")").
Proof. apply clean_route_table_associations_mutating. Qed.

(** In dry-run mode, [SubnetResource.clean] makes no mutating API call. *)
Theorem subnet_clean_dry_run_no_mutation (p : ec2_clean_provider)
    (context : option ExecutionContext) (subnet_id : string) :
  opt_dry_run context = true ->
  no_mutating (trace (subnet_clean p context subnet_id)) = true.
Proof.
  intros Hd. unfold no_mutating. apply forallb_forall. intros ev Hin.
  destruct (is_mutating ev) eqn:Hm; [|reflexivity]. exfalso.
  unfold subnet_clean in Hin. cbv zeta in Hin.
  apply in_trace_bind in Hin as [Hin | (u & _ & Hin)]; [destruct Hin as [<- | []]; discriminate Hm|].
  apply in_trace_bind in Hin as [Hin | (u' & _ & Hin)].
  - destruct (clean_network_interfaces_mutating p context subnet_id ev Hin Hm)
      as (enis & e & _ & _ & _ & Hf & _). congruence.
  - destruct (clean_route_table_associations_mutating p context subnet_id ev Hin Hm)
      as (rts & rt & a & aid & _ & _ & _ & _ & _ & _ & Hf & _). congruence.
Qed.

Lemma iter_M_all_ok {A} (f : A -> M unit) (l : list A) :
  (forall x, In x l -> outcome (f x) = Ok tt) ->
  outcome (iter_M f l) = Ok tt /\
  forall x ev, In x l -> In ev (trace (f x)) -> In ev (trace (iter_M f l)).
Proof.
  induction l as [|x l IH]; intros Hf; [split; [reflexivity | intros ? ? []]|].
  destruct IH as [Ho Ht]; [intros y Hy; apply Hf; right; exact Hy|].
  cbn [iter_M]. rewrite outcome_bind, trace_bind, (Hf x (or_introl eq_refl)).
  split; [exact Ho|]. intros y ev [<- | Hy] Hev; apply in_or_app; [left; exact Hev|].
  right. exact (Ht y ev Hy Hev).
Qed.

Section CleanAll.
Variable p : ec2_clean_provider.
Variable context : option ExecutionContext.
Hypothesis not_dry : opt_dry_run context = false.
Hypothesis detach_ok : forall aid, detach_network_interface p aid = Ok tt.
Hypothesis delete_client_errors :
  forall id e, delete_network_interface p id = Exc e -> exists c m, e = ClientError c m.

Lemma clean_network_interface_deletes (e : ni) :
  (eni_cleanable e = true -> ni_status e = "in-use" ->
   forall a, ni_attachment e = Some a -> att_attachment_id a <> None) ->
  outcome (clean_network_interface p context e) = Ok tt /\
  (eni_cleanable e = true ->
   In (Call ("delete_network_interface(" +:+ ni_id e +:+ ")"))
      (trace (clean_network_interface p context e))).
Proof.
  intros Hkey. unfold eni_cleanable in *. unfold clean_network_interface. cbv zeta.
  destruct (is_aws_managed e) eqn:Hman; [split; [reflexivity | discriminate]|].
  destruct (attached_to_instance e) eqn:Hatt; [split; [reflexivity | discriminate]|].
  specialize (Hkey eq_refl). rewrite not_dry.
  destruct ((ni_status e =? "in-use") && bool_decide (is_Some (ni_attachment e))) eqn:Hin.
  - apply andb_prop in Hin as [Hs Hsome]. apply String.eqb_eq in Hs.
    apply bool_decide_eq_true in Hsome.
    destruct (ni_attachment e) as [a|] eqn:Ha; [|destruct Hsome as [? Hx]; discriminate Hx].
    cbn [mbind option_bind].
    destruct (att_attachment_id a) as [aid|] eqn:Haid; [|exfalso; exact (Hkey Hs a eq_refl Haid)].
    rewrite detach_ok.
    destruct (delete_network_interface p (ni_id e)) as [u|ex] eqn:Hd.
    + cbn. split; [reflexivity|]. intros _.
      repeat (first [left; reflexivity | right]).
    + destruct (delete_client_errors _ _ Hd) as (c & m & ->). cbn.
      split; [reflexivity|]. intros _. repeat (first [left; reflexivity | right]).
  - destruct (delete_network_interface p (ni_id e)) as [u|ex] eqn:Hd.
    + cbn. split; [reflexivity|]. intros _. repeat (first [left; reflexivity | right]).
    + destruct (delete_client_errors _ _ Hd) as (c & m & ->). cbn.
      split; [reflexivity|]. intros _. repeat (first [left; reflexivity | right]).
Qed.

End CleanAll.

(** Outside dry-run, when detaching succeeds, deleting raises at most
    ClientErrors and every in-use interface to clean has an attachment id,
    [_clean_network_interfaces] returns normally and attempts
    [delete_network_interface] on every interface that is neither AWS-
    managed nor attached to an instance. *)
Theorem clean_network_interfaces_attempts_all (p : ec2_clean_provider)
    (context : option ExecutionContext) (subnet_id : string) (enis : list ni) :
  opt_dry_run context = false ->
  (forall aid, detach_network_interface p aid = Ok tt) ->
  (forall id e, delete_network_interface p id = Exc e -> exists c m, e = ClientError c m) ->
  list_subnet_interfaces p subnet_id = Ok enis ->
  (forall e, In e enis -> eni_cleanable e = true -> ni_status e = "in-use" ->
     forall a, ni_attachment e = Some a -> att_attachment_id a <> None) ->
  outcome (_clean_network_interfaces p context subnet_id) = Ok tt /\
  forall e, In e enis -> eni_cleanable e = true ->
    In (Call ("delete_network_interface(" +:+ ni_id e +:+ ")"))
       (trace (_clean_network_interfaces p context subnet_id)).
Proof.
  intros Hdry Hdet Hdel Hl Hkey.
  destruct (iter_M_all_ok (clean_network_interface p context) enis) as [Ho Ht].
  { intros x Hx. exact (proj1 (clean_network_interface_deletes p context Hdry Hdet Hdel x (Hkey x Hx))). }
  unfold _clean_network_interfaces. rewrite Hl. cbn [api bind].
  unfold trace, outcome in *.
  destruct (iter_M (clean_network_interface p context) enis) as [t r]. cbn in Ho |- *. subst r.
  split; [reflexivity|]. intros e He Hc. right.
  apply (Ht e _ He). exact (proj2 (clean_network_interface_deletes p context Hdry Hdet Hdel e (Hkey e He)) Hc).
Qed.

(** ** VPCResourceCollection.get_all_resources and the factory *)

Lemma filter_concat {A} (f : A -> bool) (ls : list (list A)) :
  List.filter f (concat ls) = concat (map (List.filter f) ls).
Proof.
  induction ls as [|l ls IH]; [reflexivity|]. cbn [concat map].
  rewrite <- IH. induction l as [|x l IHl]; [reflexivity|].
  cbn [app List.filter]. rewrite IHl. destruct (f x); reflexivity.
Qed.

Lemma get_all_resources_of_copy (keep : vobj -> bool) (lh lh' : lheap) (self c' : collection) :
  (forall f, lh' !! get_field c' f = Some (List.filter keep (read lh (get_field self f)))) ->
  get_all_resources lh' c' = List.filter keep (get_all_resources lh self).
Proof.
  intros Hd. unfold get_all_resources. rewrite filter_concat, map_map. f_equal.
  apply map_ext. intros f. unfold read at 1. rewrite (Hd f). reflexivity.
Qed.

(** [get_all_resources] of the collection returned by [filter_by_tags]
    (respectively [exclude_default_resources]) is [get_all_resources] of
    the original collection filtered by the tag predicate (respectively by
    [is_default_resource()] being False). *)
Theorem get_all_resources_after_filters (lh : lheap) (self : collection) :
  (forall f, get_field self f ∈ dom lh) ->
  (forall tags lh' c', filter_by_tags lh self tags = (lh', c') ->
     get_all_resources lh' c' = List.filter (matches_tags tags) (get_all_resources lh self)) /\
  (forall (ops : VPCResourceOps) lh' c', outcome (exclude_default_resources lh self) = Ok (lh', c') ->
     get_all_resources lh' c' = List.filter spec_not_default (get_all_resources lh self)).
Proof.
  intros Hself.
  assert (Hgen : forall keep lh1 c1 lh' c', new_collection lh (c_vpc_id self) = (lh1, c1) ->
            foldl (assign_filtered keep self) (lh1, c1) all_fields = (lh', c') ->
            get_all_resources lh' c' = List.filter keep (get_all_resources lh self)).
  { intros keep lh1 c1 lh' c' Hn Hf.
    pose proof (from_new_collection keep lh self Hself lh1 c1 Hn) as Hc. rewrite Hf in Hc.
    destruct Hc as (_ & _ & Hd & _). apply get_all_resources_of_copy.
    intros f. exact (proj2 (Hd f I)). }
  split.
  - intros tags lh' c' Hfb. rewrite filter_by_tags_eq in Hfb.
    remember (new_collection lh (c_vpc_id self)) as st eqn:Hn in Hfb.
    destruct st as [lh1 c1]. symmetry in Hn.
    exact (Hgen _ lh1 c1 lh' c' Hn Hfb).
  - intros ops lh' c' Hex. unfold exclude_default_resources in Hex.
    apply fold_not_default_ok in Hex as ([lh1 c1] & Hn & Hf).
    assert (Hn' : new_collection lh (c_vpc_id self) = (lh1, c1)).
    { change (Ok (new_collection lh (c_vpc_id self)) = Ok (lh1, c1)) in Hn. inversion Hn. reflexivity. }
    exact (Hgen _ lh1 c1 lh' c' Hn' (eq_sym Hf)).
Qed.

Lemma insert_nil_keep (m : lheap) (i j : nat) :
  m !! j = Some [] -> <[i := []]> m !! j = Some [].
Proof.
  intros Hj. destruct (decide (i = j)) as [->|Hne]; [apply lookup_insert_eq|].
  rewrite lookup_insert_ne by exact Hne. exact Hj.
Qed.

Lemma new_collection_empty (lh : lheap) (v : string) (lh1 : lheap) (c : collection) :
  new_collection lh v = (lh1, c) -> forall f, lh1 !! get_field c f = Some [].
Proof.
  unfold new_collection.
  repeat (let E := fresh "E" in
          destruct (alloc _ _) as [? ?] eqn:E;
          apply alloc_spec in E as [? ->]; cbv beta iota).
  intros E. injection E as <- <-. intros f.
  destruct f; cbn [get_field subnets security_groups route_tables network_acls network_interfaces
                   nat_gateways vpc_endpoints internet_gateways elastic_ips vpc_peering_connections];
    repeat (first [apply lookup_insert_eq | apply insert_nil_keep]).
Qed.

Lemma type_field_subnet (resource_type : string) :
  type_field resource_type = Some FSubnets <-> resource_type = "subnet".
Proof.
  unfold type_field. split.
  - destruct (String.eqb resource_type "subnet") eqn:E.
    + intros _. apply String.eqb_eq. exact E.
    + repeat (match goal with |- context [if ?b then _ else _] => destruct b end);
        intros H; discriminate H.
  - intros ->. reflexivity.
Qed.

Lemma discover_subnets_outcome (env_region factory_region : option string)
    (describe : result (list subnet_data)) (vpc_id : string) :
  outcome (_discover_subnets env_region factory_region describe vpc_id) =
  Ok (match describe with
      | Ok ds => fst (snd (discover_loop env_region factory_region vpc_id ds))
      | Exc _ => []
      end).
Proof.
  unfold _discover_subnets. destruct describe as [ds|e]; [|reflexivity].
  destruct (discover_loop env_region factory_region vpc_id ds) as [t [l [e|]]]; reflexivity.
Qed.

(** [VPCFactory.create_by_resource_type] returns the subnets discovered by
    [_discover_subnets] for the type [subnet], and an empty list for every
    other type, mapped or not: only the subnet list of the collection is
    ever filled; discovery errors are logged and the subnets found before
    the error are kept. *)
Theorem create_by_resource_type_only_subnets (env_region factory_region : option string)
    (describe : result (list subnet_data)) (lh : lheap) (vpc_id resource_type : string) :
  outcome (create_by_resource_type env_region factory_region describe lh vpc_id resource_type) =
  Ok (if String.eqb resource_type "subnet" then
        match describe with
        | Ok ds => fst (snd (discover_loop env_region factory_region vpc_id ds))
        | Exc _ => []
        end
      else []).
Proof.
  unfold create_by_resource_type, create_vpc_resources.
  destruct (new_collection lh vpc_id) as [lh1 c] eqn:En.
  pose proof (new_collection_empty lh vpc_id lh1 c En) as Hempty.
  pose proof (discover_subnets_outcome env_region factory_region describe vpc_id) as Hd.
  set (subs := match describe with
               | Ok ds => fst (snd (discover_loop env_region factory_region vpc_id ds))
               | Exc _ => [] end) in *.
  rewrite outcome_bind. cbn [bind log emit outcome snd].
  unfold outcome in Hd |- *.
  destruct (_discover_subnets env_region factory_region describe vpc_id) as [t r].
  cbn [snd] in Hd. subst r. cbn.
  assert (Hloc : lh1 !! fresh (dom lh1) = None) by (apply not_elem_of_dom; apply is_fresh).
  set (loc := fresh (dom lh1)) in *.
  destruct (String.eqb resource_type "subnet") eqn:Ht.
  - apply String.eqb_eq, type_field_subnet in Ht. rewrite Ht.
    unfold read. rewrite get_set_field_same, lookup_insert_eq. reflexivity.
  - destruct (type_field resource_type) as [f|] eqn:Hf; [|reflexivity].
    assert (Hne : FSubnets <> f).
    { intros <-. apply type_field_subnet in Hf. apply String.eqb_neq in Ht. contradiction. }
    unfold read. rewrite get_set_field_other by exact Hne.
    rewrite lookup_insert_ne; [rewrite (Hempty f); reflexivity|].
    intros Heq. rewrite Heq, (Hempty f) in Hloc. discriminate Hloc.
Qed.

(** ** Instances of the properties above *)

Lemma iresource_region_env_overrides_witness :
  exists name', iresource_init (Some "us-east-1") "arn:aws:s3:::bucket" "" None
                = Ok (name', "us-east-1").
Proof.
  apply (iresource_region_env_overrides "arn:aws:s3:::bucket" "" "us-east-1" None);
    [left |]; discriminate.
Defined.

Lemma iresource_region_from_arn_witness :
  exists name', iresource_init None "arn:aws:codepipeline:eu-west-1:123456789012:deploy" "" None
                = Ok (name', "eu-west-1").
Proof.
  assert (Ha : "arn:aws:codepipeline:eu-west-1:123456789012:deploy" <> "" \/ "" <> "")
    by (left; discriminate).
  destruct (iresource_region_from_arn None "arn:aws:codepipeline:eu-west-1:123456789012:deploy"
              "" None Ha (or_introl eq_refl)) as [Hr _].
  apply (Hr "eu-west-1"). reflexivity.
Defined.

Lemma iresource_default_name_witness :
  exists pre, "arn:aws:s3:::bucket/key" = pre +:+ "key" /\
              ~ In "/"%char (String.list_ascii_of_string "key").
Proof.
  apply (iresource_default_name None "arn:aws:s3:::bucket/key" None "key" "").
  reflexivity.
Defined.

Lemma get_base_arn_region_field_witness :
  outcome (get_base_arn None demo_account "codepipeline" None true true)
  = Ok "arn:aws:codepipeline:eu-west-1:123456789012:".
Proof.
  rewrite (get_base_arn_region_field None demo_account "codepipeline" None true true eq_refl).
  reflexivity.
Defined.

Lemma codepipeline_by_name_arn_witness :
  outcome (codepipeline_create_by_name None demo_account "deploy")
  = Ok ("arn:aws:codepipeline:eu-west-1:123456789012::deploy", ("deploy", "eu-west-1")) /\
  split_colon "arn:aws:codepipeline:eu-west-1:123456789012::deploy"
  = ["arn"; "aws"; "codepipeline"; "eu-west-1"; "123456789012"; ""; "deploy"].
Proof.
  exact (codepipeline_by_name_arn None demo_account "deploy" "123456789012" [] eq_refl eq_refl
           ltac:(cbn; intuition discriminate) ltac:(cbn; intuition discriminate)
           ltac:(cbn; intuition discriminate) ltac:(discriminate)).
Defined.

Lemma vpc_remove_dry_run_witness :
  outcome (@vpc_remove (subnet_ops demo_ec2) true (Some dry_auto_context) demo_heap
             (demo_subnet "subnet-app")) = Ok tt.
Proof.
  rewrite (@vpc_remove_dry_run (subnet_ops demo_ec2) true (Some dry_auto_context) demo_heap
             (demo_subnet "subnet-app") eq_refl).
  vm_compute. reflexivity.
Defined.

Lemma subnet_remove_dry_run_no_mutation_witness :
  no_mutating (trace (@vpc_remove (subnet_ops demo_ec2) true (Some dry_auto_context) demo_heap
                        (demo_subnet "subnet-app"))) = true.
Proof.
  exact (subnet_remove_dry_run_no_mutation demo_ec2 true (Some dry_auto_context) demo_heap
           (demo_subnet "subnet-app") eq_refl).
Defined.

Lemma subnet_remove_auto_approve_witness :
  count_occ event_eq_dec
    (trace (@vpc_remove (subnet_ops demo_ec2) true demo_context demo_heap (demo_subnet "subnet-db")))
    (Call "delete_subnet") = 1 /\
  outcome (@vpc_remove (subnet_ops demo_ec2) true demo_context demo_heap (demo_subnet "subnet-db"))
  = Ok tt.
Proof.
  exact (subnet_remove_auto_approve demo_ec2 true (mkContext false true None None) demo_heap
           (demo_subnet "subnet-db") eq_refl eq_refl eq_refl ltac:(vm_compute; reflexivity)).
Defined.

Lemma subnet_default_check_error_blocks_witness :
  outcome (@can_delete (subnet_ops denied_ec2) demo_heap (demo_subnet "subnet-app")) = Ok false.
Proof.
  exact (subnet_default_check_error_blocks denied_ec2 demo_heap (demo_subnet "subnet-app")
           "UnauthorizedOperation" "not authorized" eq_refl eq_refl).
Defined.

Lemma subnet_can_delete_true_iff_witness :
  outcome (@can_delete (subnet_ops demo_ec2) demo_heap (demo_subnet "subnet-db")) = Ok true.
Proof.
  apply (subnet_can_delete_true_iff demo_ec2 demo_heap (demo_subnet "subnet-db") eq_refl).
  split; [vm_compute; reflexivity|]. split; [reflexivity|].
  exists []. split; reflexivity.
Defined.

Lemma clean_network_interfaces_targets_witness :
  exists enis e, list_subnet_interfaces demo_clean "subnet-app" = Ok enis /\ In e enis /\
    eni_cleanable e = true /\ opt_dry_run demo_context = false /\
    (Call "detach_network_interface(attach-1)" = Call ("delete_network_interface(" +:+ ni_id e +:+ ")") \/
     exists a aid, ni_attachment e = Some a /\ att_attachment_id a = Some aid /\
       ni_status e = "in-use" /\
       Call "detach_network_interface(attach-1)" = Call ("detach_network_interface(" +:+ aid +:+ ")")).
Proof.
  apply (clean_network_interfaces_targets demo_clean demo_context "subnet-app"
           (Call "detach_network_interface(attach-1)")); [|reflexivity].
  vm_compute. repeat (first [left; reflexivity | right]).
Defined.

Lemma clean_route_table_associations_targets_witness :
  exists rts rt a aid, describe_route_tables demo_clean "subnet-app" = Ok rts /\ In rt rts /\
    is_main_route_table rt = false /\ In a (default [] (rt_associations rt)) /\
    as_subnet_id a = Some "subnet-app" /\ as_id a = Some aid /\ opt_dry_run demo_context = false /\
    Call "disassociate_route_table(rtbassoc-1)" = Call ("disassociate_route_table(" +:+ aid +:+ ")").
Proof.
  apply (clean_route_table_associations_targets demo_clean demo_context "subnet-app"
           (Call "disassociate_route_table(rtbassoc-1)")); [|reflexivity].
  vm_compute. repeat (first [left; reflexivity | right]).
Defined.

Lemma subnet_clean_dry_run_no_mutation_witness :
  no_mutating (trace (subnet_clean demo_clean (Some dry_auto_context) "subnet-app")) = true.
Proof.
  exact (subnet_clean_dry_run_no_mutation demo_clean (Some dry_auto_context) "subnet-app" eq_refl).
Defined.

Lemma clean_network_interfaces_attempts_all_witness :
  outcome (_clean_network_interfaces demo_clean demo_context "subnet-app") = Ok tt /\
  In (Call "delete_network_interface(eni-1)")
     (trace (_clean_network_interfaces demo_clean demo_context "subnet-app")).
Proof.
  destruct (clean_network_interfaces_attempts_all demo_clean demo_context "subnet-app"
              [mkNi "eni-1" None "in-use" (Some (mkAttachment None (Some "attach-1")));
               mkNi "eni-2" (Some "nat_gateway") "in-use" None]) as [Hok Hall].
  - reflexivity.
  - intros aid. reflexivity.
  - intros id e He. discriminate He.
  - reflexivity.
  - intros e He. cbn in He. destruct He as [<-|[<-|[]]].
    + intros _ _ a Ha. injection Ha as <-. discriminate.
    + intros Hc. discriminate Hc.
  - split; [exact Hok|]. apply (Hall (mkNi "eni-1" None "in-use" (Some (mkAttachment None (Some "attach-1"))))).
    + left. reflexivity.
    + reflexivity.
Defined.

Lemma get_all_resources_after_filters_witness :
  get_all_resources (filter_by_tags demo_collection.1 demo_collection.2 [("env", "dev")]).1
                    (filter_by_tags demo_collection.1 demo_collection.2 [("env", "dev")]).2
  = List.filter (matches_tags [("env", "dev")]) (get_all_resources demo_collection.1 demo_collection.2).
Proof.
  assert (Hs : forall f, get_field demo_collection.2 f ∈ dom demo_collection.1)
    by (intros f; destruct f; apply (bool_decide_unpack _); vm_compute; exact I).
  exact (proj1 (get_all_resources_after_filters demo_collection.1 demo_collection.2 Hs)
           _ _ _ (surjective_pairing _)).
Defined.

(** ** validate_arn and CodepipelineFactory.create_by_arn *)





